(** * Weather API: the cache-aside lookup pipeline

    A shallow embedding of the JavaScript sources
      - [src/config/cache.js]            (the cache client over node-cache),
      - [src/services/weatherService.js] (key derivation and [getWeatherData]),
      - [src/routes/weatherRoutes.js]    (the forecast projection),
    and the properties the specification states about them.

    An [async] function is a state transformer that returns or throws
    ([M]); one call runs from start to end, its [await]s in sequence.  The
    state ([World]) holds the store's table and counters, the heap of
    response documents, the clock, and a trace of upstream calls and cache
    writes.  What the upstream provider answers is an argument of the call
    ([Transport]).  Console output is left out, and so is the statistics
    timer of [config/cache.js] (lines 20-25), which is one more [set] on
    the store.

    The node-cache package is not part of the sources.  The code that
    calls it is embedded over an interface ([NodeCacheApi]), and the store
    itself ([nodeCache]) is modelled from the specification, with the
    options that [config/cache.js] passes to it. *)

From Stdlib Require Import ZArith String Ascii List Lia Permutation.
From stdpp Require Import base option list gmap strings pretty.

Local Open Scope string_scope.
Local Open Scope Z_scope.

(** ** JavaScript conversions used by the sources

    A JavaScript string is modelled by a Rocq [string] whose characters are
    read as code units below 256.  Time is a [Z]; counts are [Z] or [nat]. *)

Module Js.

(** [WhiteSpace] and [LineTerminator] code units below 256: TAB, LF, VT, FF,
    CR, SP and NBSP. *)
Definition isWhiteSpace (c : ascii) : bool :=
  let n := Z.of_N (N_of_ascii c) in
  ((9 <=? n) && (n <=? 13)) || (n =? 32) || (n =? 160).

(** The value of a character as a digit: [0-9], then [a-z] and [A-Z] from 10. *)
Definition digitValue (c : ascii) : option Z :=
  let n := Z.of_N (N_of_ascii c) in
  if (48 <=? n) && (n <=? 57) then Some (n - 48)
  else if (97 <=? n) && (n <=? 122) then Some (n - 87)
  else if (65 <=? n) && (n <=? 90) then Some (n - 55)
  else None.

Definition radixDigit (R : Z) (c : ascii) : option Z :=
  match digitValue c with
  | Some d => if d <? R then Some d else None
  | None => None
  end.

(** The longest prefix of radix-[R] digits: its value continued from [acc],
    the number of digits read, and the rest of the input. *)
Fixpoint scanDigits (R : Z) (acc : Z) (l : list ascii) : Z * nat * list ascii :=
  match l with
  | [] => (acc, O, [])
  | c :: r =>
      match radixDigit R c with
      | Some d => let '(v, n, rest) := scanDigits R (R * acc + d) r in (v, S n, rest)
      | None => (acc, O, l)
      end
  end.

Definition isDecimalDigit (c : ascii) : bool :=
  match radixDigit 10 c with
  | Some _ => true
  | None => false
  end.

(** The number that decimal digits denote, continued from [acc]. *)
Fixpoint decimalValue (acc : Z) (l : list ascii) : Z :=
  match l with
  | [] => acc
  | c :: r => decimalValue (10 * acc + default 0 (radixDigit 10 c)) r
  end.

Fixpoint dropWhiteSpace (l : list ascii) : list ascii :=
  match l with
  | [] => []
  | c :: r => if isWhiteSpace c then dropWhiteSpace r else l
  end.

(** [TrimString(s, start+end)] *)
Definition trim (l : list ascii) : list ascii :=
  rev (dropWhiteSpace (rev (dropWhiteSpace l))).

(** A Number, as far as the sources look at one: not-a-number, an infinity,
    or the decimal [m * 10^e] that a numeric literal denotes.  The literal's
    exact value is kept; what rounding to a double changes is accounted for
    where a Number is tested ([gtZero]). *)
Inductive number :=
| NaN
| PosInfinity
| NegInfinity
| Dec (m e : Z).

Definition negate (x : number) : number :=
  match x with
  | NaN => NaN
  | PosInfinity => NegInfinity
  | NegInfinity => PosInfinity
  | Dec m e => Dec (- m) e
  end.

(** An optional sign: the factor it stands for, and the rest. *)
Definition stripSign (l : list ascii) : Z * list ascii :=
  match l with
  | c :: r =>
      if Ascii.eqb c "-" then (-1, r)
      else if Ascii.eqb c "+" then (1, r)
      else (1, l)
  | [] => (1, l)
  end.

(** The rest after a prefix [0x] (given as [lo] and [up], the letter in
    both cases), if the input has one. *)
Definition radixPrefix (lo up : ascii) (l : list ascii) : option (list ascii) :=
  match l with
  | c0 :: c1 :: r =>
      if Ascii.eqb c0 "0" && (Ascii.eqb c1 lo || Ascii.eqb c1 up)
      then Some r else None
  | _ => None
  end.

(** [ExponentPart_opt] then end of input, after the mantissa digits [m]
    of which [nf] stood behind the point. *)
Definition exponentPart (m : Z) (nf : nat) (l : list ascii) : number :=
  match l with
  | [] => Dec m (- Z.of_nat nf)
  | c :: r =>
      if Ascii.eqb c "e" || Ascii.eqb c "E" then
        let '(sign, r') := stripSign r in
        match scanDigits 10 0 r' with
        | (x, S _, []) => Dec m (sign * x - Z.of_nat nf)
        | _ => NaN
        end
      else NaN
  end.

(** After the integer digits: an optional point and the digits behind it,
    continuing the mantissa [ip]. *)
Definition fractionPart (ip : Z) (l : list ascii) : Z * nat * list ascii :=
  match l with
  | c :: r => if Ascii.eqb c "." then scanDigits 10 ip r else (ip, O, l)
  | [] => (ip, O, l)
  end.

(** [StrUnsignedDecimalLiteral]: [Infinity], [digits . digits_opt exp_opt],
    [. digits exp_opt] or [digits exp_opt]. *)
Definition strUnsignedDecimalLiteral (l : list ascii) : number :=
  if decide (l = list_ascii_of_string "Infinity") then PosInfinity
  else
    let '(ip, ni, r1) := scanDigits 10 0 l in
    let '(m, nf, r2) := fractionPart ip r1 in
    match (ni + nf)%nat with
    | O => NaN
    | S _ => exponentPart m nf r2
    end.

(** [NonDecimalIntegerLiteral] body: one digit or more of radix [R], then
    end of input. *)
Definition nonDecimalDigits (R : Z) (l : list ascii) : number :=
  match scanDigits R 0 l with
  | (v, S _, []) => Dec v 0
  | _ => NaN
  end.

(** [StrNumericLiteral]: a hexadecimal, octal or binary integer without a
    sign, or a signed decimal. *)
Definition strNumericLiteral (t : list ascii) : number :=
  match radixPrefix "x" "X" t, radixPrefix "o" "O" t, radixPrefix "b" "B" t with
  | Some r, _, _ => nonDecimalDigits 16 r
  | None, Some r, _ => nonDecimalDigits 8 r
  | None, None, Some r => nonDecimalDigits 2 r
  | None, None, None =>
      let '(sign, r) := stripSign t in
      if sign =? 1 then strUnsignedDecimalLiteral r
      else negate (strUnsignedDecimalLiteral r)
  end.

(** [StringToNumber], the conversion behind [Number(s)], [isNaN(s)] and
    [s > 0] for a string [s]: white space is trimmed, the empty string is
    0, and what is not a numeric literal as a whole is [NaN]. *)
Definition stringToNumber (l : list ascii) : number :=
  match trim l with
  | [] => Dec 0 0
  | t => strNumericLiteral t
  end.

Definition ToNumber (s : string) : number :=
  stringToNumber (list_ascii_of_string s).

(** [isNaN(s)] *)
Definition isNaN (s : string) : bool :=
  match ToNumber s with
  | NaN => true
  | _ => false
  end.

(** [x > 0] on the double nearest to [x]: a positive decimal rounds to a
    positive double unless it is at most [2^-1075], half the least positive
    double, in which case it rounds to zero. *)
Definition gtZero (x : number) : bool :=
  match x with
  | NaN => false
  | PosInfinity => true
  | NegInfinity => false
  | Dec m e =>
      (0 <? m) && (if 0 <=? e then true else 10 ^ (- e) <? m * 2 ^ 1075)
  end.

(** A string is truthy when it is not empty. *)
Definition truthy (s : string) : bool :=
  match s with
  | EmptyString => false
  | String _ _ => true
  end.

(** [parseInt(s)] without a radix: leading white space is dropped, a sign
    and a [0x] prefix are read, then the longest prefix of digits.  [None]
    is [NaN].  The mathematical integer is kept; a double differs from it
    only beyond [2^53]. *)
Definition parseInt (s : string) : option Z :=
  let '(sign, S1) := stripSign (dropWhiteSpace (list_ascii_of_string s)) in
  let '(R, S2) :=
    match radixPrefix "x" "X" S1 with
    | Some r => (16, r)
    | None => (10, S1)
    end in
  match scanDigits R 0 S2 with
  | (v, S _, _) => Some (sign * v)
  | (_, O, _) => None
  end.

(** [a.slice(0, end)]: [end] goes through [ToIntegerOrInfinity] ([NaN]
    becomes 0); a negative end counts from the length; the result is the
    elements before the clamped end. *)
Definition slice0 {A : Type} (a : list A) (end_ : option Z) : list A :=
  let len := Z.of_nat (length a) in
  let relativeEnd := default 0 end_ in
  let final :=
    if relativeEnd <? 0 then Z.max (len + relativeEnd) 0
    else Z.min relativeEnd len in
  take (Z.to_nat final) a.

End Js.

(** ** The forecast projection ([routes/weatherRoutes.js], lines 131-135)

    [weatherData_days] is [weatherData.days]; [days] is [req.query.days],
    absent or a string (a repeated parameter, which arrives as an array,
    is not represented). *)
Definition forecastDays {A : Type} (weatherData_days : list A)
    (days : option string) : list A :=
  match days with
  | Some d =>
      if Js.truthy d && negb (Js.isNaN d) && Js.gtZero (Js.ToNumber d)
      then Js.slice0 weatherData_days (Js.parseInt d)
      else weatherData_days
  | None => weatherData_days
  end.


(** ** Values, documents and the heap

    A JavaScript value is a primitive or a reference to an object in the
    heap.  [response.data], the parsed JSON body, is either.  Numbers that
    are not integers are not represented. *)

Definition loc := nat.

Inductive prim :=
| PNull
| PBool (b : bool)
| PNum (z : Z)
| PStr (s : string).

Inductive value :=
| VPrim (p : prim)
| VRef (l : loc).

Definition null : value := VPrim PNull.

(** [if (v)]: [null], [false], [0] and the empty string are falsy; every
    object reference is truthy. *)
Definition truthy (v : value) : bool :=
  match v with
  | VPrim PNull => false
  | VPrim (PBool b) => b
  | VPrim (PNum z) => negb (z =? 0)
  | VPrim (PStr s) => Js.truthy s
  | VRef _ => true
  end.

(** The properties of a response document that the sources read:
    [message] (the error classifier), and the fields the routes project.
    A sub-document is kept as its JSON text. *)
Record Document := {
  data_message : option string;
  resolvedAddress : option string;
  address : option string;
  latitude : option string;
  longitude : option string;
  timezone : option string;
  currentConditions : option string;
  days : list string
}.

(** A response body: a primitive or a document. *)
Inductive Body :=
| BPrim (p : prim)
| BDoc (d : Document).

Record Response := {
  status : Z;
  statusText : string;
  body : Body
}.

(** A thrown [Error]: [message], and the [response] and [request]
    properties that axios attaches. *)
Record JsError := {
  message : string;
  response : option Response;
  request : bool
}.

(** [new Error(msg)] *)
Definition Error (msg : string) : JsError :=
  {| message := msg; response := None; request := false |}.

(** ** Parameter objects

    [Object.entries(params)]: the own properties in enumeration order.  A
    property value is [undefined], [null] or a string. *)
Inductive pvalue :=
| PUndefined
| PNullV
| PValue (s : string).

Definition Params := list (string * pvalue).

(** [o[k]] *)
Fixpoint prop (k : string) (o : Params) : pvalue :=
  match o with
  | [] => PUndefined
  | (k', v) :: r => if decide (k' = k) then v else prop k r
  end.

(** [{...o, k: v}]: an existing property keeps its place, a new one is
    appended. *)
Fixpoint assign (k : string) (v : pvalue) (o : Params) : Params :=
  match o with
  | [] => [(k, v)]
  | (k', v') :: r =>
      if decide (k' = k) then (k, v) :: r else (k', v') :: assign k v r
  end.

(** ** [generateCacheKey] ([services/weatherService.js], lines 14-21) *)

(** [value !== undefined && value !== null] *)
Definition defined (e : string * pvalue) : bool :=
  match e.2 with
  | PUndefined => false
  | PNullV => false
  | PValue _ => true
  end.

(** [`${key}=${value}`] *)
Definition entryString (e : string * pvalue) : string :=
  e.1 +:+ "=" +:+
  match e.2 with
  | PUndefined => "undefined"
  | PNullV => "null"
  | PValue s => s
  end.

Definition generateCacheKey (location : string) (params : Params) : string :=
  let queryString :=
    String.concat "&" (map entryString (List.filter defined params)) in
  "weather:" +:+ location +:+
  (if Js.truthy queryString then ":" +:+ queryString else "").

(** ** Configuration ([process.env]) *)
Record Env := {
  WEATHER_API_KEY : option string;
  WEATHER_API_BASE_URL : option string;
  CACHE_EXPIRATION : option string
}.

(** [parseInt(process.env.CACHE_EXPIRATION) || 43200]: [NaN] (also for an
    unset variable) and [0] are falsy. *)
Definition cacheExpiration (env : Env) : Z :=
  match CACHE_EXPIRATION env with
  | None => 43200
  | Some s =>
      match Js.parseInt s with
      | None => 43200
      | Some z => if z =? 0 then 43200 else z
      end
  end.

(** ** Program state

    The store's table, the heap of documents, the clock (in seconds) and a
    trace of the calls that the properties count. *)

Record Entry := {
  entry_value : value;
  expiresAt : Z
}.

Record Stats := {
  hits : nat;
  misses : nat
}.

(** [new NodeCache({stdTTL, checkperiod, useClones})] *)
Record NodeCache := {
  stdTTL : Z;
  useClones : bool;
  data : gmap string Entry;
  stats : Stats
}.

Inductive Event :=
| UpstreamCall (baseUrl : option string) (location : string) (requestParams : Params)
| CacheSet (key : string) (v : value) (ttl : Z).

Record World := {
  now : Z;
  heap : list Document;
  cache : NodeCache;
  log : list Event
}.

Definition with_now (t : Z) (w : World) : World :=
  {| now := t; heap := heap w; cache := cache w; log := log w |}.

Definition with_heap (h : list Document) (w : World) : World :=
  {| now := now w; heap := h; cache := cache w; log := log w |}.

Definition with_cache (c : NodeCache) (w : World) : World :=
  {| now := now w; heap := heap w; cache := c; log := log w |}.

Definition with_log (l : list Event) (w : World) : World :=
  {| now := now w; heap := heap w; cache := cache w; log := l |}.

Definition with_data (d : gmap string Entry) (c : NodeCache) : NodeCache :=
  {| stdTTL := stdTTL c; useClones := useClones c; data := d; stats := stats c |}.

Definition with_stats (s : Stats) (c : NodeCache) : NodeCache :=
  {| stdTTL := stdTTL c; useClones := useClones c; data := data c; stats := s |}.

(** Time passes. *)
Definition tick (d : Z) (w : World) : World := with_now (now w + d) w.

(** A caller overwrites the object behind a reference ([obj.p = ...]). *)
Definition mutate (l : loc) (d : Document) (w : World) : World :=
  with_heap (<[l := d]> (heap w)) w.

(** What a value denotes: a primitive itself, a reference its document. *)
Definition deref (v : value) (w : World) : option Body :=
  match v with
  | VPrim p => Some (BPrim p)
  | VRef l => BDoc <$> heap w !! l
  end.

(** ** Completions: a call returns or throws *)

Inductive Completion (A : Type) :=
| Normal (a : A)
| Throw (e : JsError).
Arguments Normal {A} a.
Arguments Throw {A} e.

Definition M (A : Type) : Type := World -> Completion A * World.

Definition ret {A : Type} (a : A) : M A := fun w => (Normal a, w).

Definition throw {A : Type} (e : JsError) : M A := fun w => (Throw e, w).

Definition bind {A B : Type} (m : M A) (k : A -> M B) : M B :=
  fun w =>
    match m w with
    | (Normal a, w') => k a w'
    | (Throw e, w') => (Throw e, w')
    end.

(** [try { m } catch (error) { handler }] *)
Definition try_catch {A : Type} (m : M A) (handler : JsError -> M A) : M A :=
  fun w =>
    match m w with
    | (Normal a, w') => (Normal a, w')
    | (Throw e, w') => handler e w'
    end.

Definition trace (e : Event) : M unit :=
  fun w => (Normal tt, with_log (log w ++ [e]) w).

Notation "'let*' x ':=' m 'in' k" := (bind m (fun x => k))
  (at level 10, x name, m at level 100, k at level 200).

(** ** The node-cache instance, as an interface

    The methods of the [cache] object that [config/cache.js] calls.  A
    method returns or throws; [cache_get] returns [None] for [undefined]. *)
Record NodeCacheApi := {
  cache_get : string -> M (option value);
  cache_set : string -> value -> option Z -> M bool;
  cache_del : string -> M nat;
  cache_flushAll : M unit
}.

(** ** The store behind the interface

    [config/cache.js] only configures the store (lines 7-11); what its
    methods do is the package's business. *)

Module nodeCache.

(** Modelled from the spec: the counters, "hits on a live hit, misses on
    absent/expired". *)
Definition hit (c : NodeCache) : NodeCache :=
  with_stats {| hits := S (hits (stats c)); misses := misses (stats c) |} c.

(** Modelled from the spec: see [hit]. *)
Definition miss (c : NodeCache) : NodeCache :=
  with_stats {| hits := hits (stats c); misses := S (misses (stats c)) |} c.

(** Modelled from the spec: the copy made by a store with value
    semantics ("a full copy-in/copy-out"), which node-cache makes when
    [useClones] is on.  A primitive is its own copy; a document is
    copied to a fresh location. *)
Definition clone (v : value) (w : World) : value * World :=
  match v with
  | VPrim p => (VPrim p, w)
  | VRef l =>
      match heap w !! l with
      | Some d => (VRef (length (heap w)), with_heap (heap w ++ [d]) w)
      | None => (VRef l, w)
      end
  end.

(** Modelled from the spec: what crosses the store's boundary, a copy
    when [useClones] is on and the value itself (for a document, the
    caller's reference) when it is off, as [config/cache.js] sets it:
    "don't clone data". *)
Definition transfer (v : value) (w : World) : value * World :=
  if useClones (cache w) then clone v w else (v, w).

(** Modelled from the spec: node-cache's [get].  "Returns absent for
    missing or logically-expired keys (even if not yet swept).
    Increments hits on a live hit, misses on absent/expired"; an entry
    is live when [now < expiresAt]. *)
Definition get (key : string) : M (option value) :=
  fun w =>
    match data (cache w) !! key with
    | Some e =>
        if now w <? expiresAt e then
          let '(v, w') := transfer (entry_value e) w in
          (Normal (Some v), with_cache (hit (cache w')) w')
        else (Normal None, with_cache (miss (cache w)) w)
    | None => (Normal None, with_cache (miss (cache w)) w)
    end.

(** Modelled from the spec: the error of a malformed [set]. *)
Definition InvalidArgument : JsError := Error "InvalidArgument".

(** Modelled from the spec: node-cache's [set].  "Overwrites any
    existing entry for key, resetting its expiry. ttlSeconds defaults to
    a configured baseline when not supplied by the caller; must be a
    positive integer, otherwise the call fails with InvalidArgument";
    [expiresAt] is [createdAt + ttlSeconds]. *)
Definition set (key : string) (v : value) (ttl : option Z) : M bool :=
  fun w =>
    let ttlSeconds := default (stdTTL (cache w)) ttl in
    if ttlSeconds <=? 0 then (Throw InvalidArgument, w)
    else
      let '(v', w') := transfer v w in
      let e := {| entry_value := v'; expiresAt := now w + ttlSeconds |} in
      (Normal true, with_cache (with_data (<[key := e]> (data (cache w'))) (cache w')) w').

(** Modelled from the spec: node-cache's [del], "delete(key) ->
    removed"; the number of entries removed. *)
Definition del (key : string) : M nat :=
  fun w =>
    match data (cache w) !! key with
    | Some _ =>
        (Normal 1%nat, with_cache (with_data (delete key (data (cache w))) (cache w)) w)
    | None => (Normal 0%nat, w)
    end.

(** Modelled from the spec: node-cache's [flushAll].  "Empties the store
    entirely; stats counters are untouched". *)
Definition flushAll : M unit :=
  fun w => (Normal tt, with_cache (with_data ∅ (cache w)) w).

(** Modelled from the spec: the periodic sweep, which "proactively
    removes entries whose expiresAt has passed". *)
Definition checkData (w : World) : World :=
  with_cache
    (with_data (filter (fun kv => now w < expiresAt kv.2) (data (cache w))) (cache w))
    w.

(** The store as [config/cache.js] calls it. *)
Definition api : NodeCacheApi :=
  {| cache_get := get; cache_set := set; cache_del := del;
     cache_flushAll := flushAll |}.

End nodeCache.

(** [new NodeCache({stdTTL: cacheExpiration, checkperiod: ..., useClones:
    false})] ([config/cache.js], lines 7-11).  The check period only
    schedules [nodeCache.checkData]. *)
Definition newCache (env : Env) : NodeCache :=
  {| stdTTL := cacheExpiration env; useClones := false; data := ∅;
     stats := {| hits := 0; misses := 0 |} |}.

(** ** [cacheClient] ([config/cache.js], lines 30-92) *)

Module cacheClient.
Section Client.
Context (cache : NodeCacheApi) (cacheExpiration : Z).

(** [get]: the value, or [null] when there is none or the cache threw. *)
Definition get (key : string) : M value :=
  try_catch
    (let* value := cache_get cache key in
     ret (match value with Some v => v | None => null end))
    (fun error => ret null).

(** [options.EX || cacheExpiration]: an absent [EX] and [0] are falsy. *)
Definition ttlOf (EX : option Z) : Z :=
  match EX with
  | Some z => if z =? 0 then cacheExpiration else z
  | None => cacheExpiration
  end.

(** [set]: ["OK"], or the cache's error thrown again. *)
Definition set (key : string) (value : value) (EX : option Z) : M string :=
  try_catch
    (let ttl := ttlOf EX in
     let* _ := trace (CacheSet key value ttl) in
     let* _ := cache_set cache key value (Some ttl) in
     ret "OK")
    (fun error => throw error).

(** [del]: 1 if deleted, 0 if not found or the cache threw. *)
Definition del (key : string) : M Z :=
  try_catch
    (let* n := cache_del cache key in
     ret (match n with O => 0 | S _ => 1 end))
    (fun error => ret 0).

Definition flushAll : M string :=
  try_catch
    (let* _ := cache_flushAll cache in ret "OK")
    (fun error => throw error).
End Client.
End cacheClient.

(** ** The upstream provider, through axios

    What happens to the request: the provider responded (after some
    seconds), nothing came back, or the request could not be sent. *)
Inductive Transport :=
| Responded (r : Response) (latency : nat)
| NoResponse (msg : string) (latency : nat)
| NotSent (msg : string).

(** The response of a resolved [axios.get]; [data] is the parsed body. *)
Record AxiosResponse := {
  ar_status : Z;
  ar_statusText : string;
  ar_data : value
}.

(** Parsing a body allocates its document. *)
Definition alloc (b : Body) (w : World) : value * World :=
  match b with
  | BPrim p => (VPrim p, w)
  | BDoc d => (VRef (length (heap w)), with_heap (heap w ++ [d]) w)
  end.

(** [axios.get(url, {params})] with the default [validateStatus]: a
    response resolves when its status is in [200, 300) and rejects with
    [error.response] otherwise; no response rejects with [error.request]
    only; a request that was not sent rejects with neither.  Every call is
    traced. *)
Definition axios_get (t : Transport) (baseUrl : option string)
    (location : string) (requestParams : Params) : M AxiosResponse :=
  let* _ := trace (UpstreamCall baseUrl location requestParams) in
  fun w =>
    match t with
    | Responded r latency =>
        let w1 := tick (Z.of_nat latency) w in
        if (200 <=? status r) && (status r <? 300) then
          let '(v, w2) := alloc (body r) w1 in
          (Normal {| ar_status := status r; ar_statusText := statusText r;
                     ar_data := v |}, w2)
        else
          (Throw {| message := "Request failed with status code " +:+ pretty (status r);
                    response := Some r; request := true |}, w1)
    | NoResponse msg latency =>
        (Throw {| message := msg; response := None; request := true |},
         tick (Z.of_nat latency) w)
    | NotSent msg =>
        (Throw {| message := msg; response := None; request := false |}, w)
    end.

(** ** [getWeatherData] ([services/weatherService.js], lines 29-105) *)

(** [const apiKey = process.env.WEATHER_API_KEY] *)
Definition apiKey (env : Env) : option string := WEATHER_API_KEY env.

(** [const baseUrl = process.env.WEATHER_API_BASE_URL] *)
Definition baseUrl (env : Env) : option string := WEATHER_API_BASE_URL env.

Section Service.
Context (cache : NodeCacheApi) (env : Env).

(** [error.response.data?.message || error.response.statusText] *)
Definition errorMessageOf (r : Response) : string :=
  match body r with
  | BDoc d =>
      match data_message d with
      | Some m => if Js.truthy m then m else statusText r
      | None => statusText r
      end
  | BPrim _ => statusText r
  end.

(** The [catch] block (lines 77-104). *)
Definition handler (location : string) (error : JsError) : M value :=
  match response error with
  | Some r =>
      let statusCode := status r in
      let errorMessage := errorMessageOf r in
      if statusCode =? 400 then
        throw (Error ("Invalid request: " +:+ errorMessage))
      else if (statusCode =? 401) || (statusCode =? 403) then
        throw (Error "Invalid API key or authentication error")
      else if statusCode =? 404 then
        throw (Error ("Location not found: " +:+ location))
      else if statusCode =? 429 then
        throw (Error "API rate limit exceeded")
      else
        throw (Error ("Weather API error: " +:+ errorMessage))
  | None =>
      if request error then
        throw (Error "No response from weather service. Please try again later.")
      else
        throw error
  end.

(** [t] is what becomes of the upstream request, should one be made. *)
Definition getWeatherData (t : Transport) (location : string)
    (params : Params) : M value :=
  try_catch
    (if negb (Js.truthy location) then
       throw (Error "Location is required")
     else if negb (Js.truthy (default "" (apiKey env))) then
       throw (Error "Weather API key is not configured")
     else
       let cacheKey := generateCacheKey location params in
       let* cachedData := cacheClient.get cache cacheKey in
       if truthy cachedData then ret cachedData
       else
         let requestParams :=
           assign "unitGroup"
             (match prop "unitGroup" params with
              | PValue s => if Js.truthy s then PValue s else PValue "metric"
              | _ => PValue "metric"
              end)
             (assign "key" (PValue (default "" (apiKey env))) params) in
         let* response := axios_get t (baseUrl env) location requestParams in
         if negb (ar_status response =? 200) then
           throw (Error ("API error: " +:+ ar_statusText response))
         else
           let weatherData := ar_data response in
           let* _ := cacheClient.set cache (cacheExpiration env) cacheKey weatherData
                  (Some (cacheExpiration env)) in
           ret weatherData)
    (handler location).
End Service.

(** ** The error kinds of the specification

    The sources throw plain [Error]s; each kind is told by its message. *)
Inductive DomainError :=
| InvalidRequest (errorMessage : string)
| AuthenticationError
| LocationNotFound (location : string)
| RateLimitExceeded
| UpstreamError (errorMessage : string)
| UpstreamUnavailable.

Definition thrown (k : DomainError) : JsError :=
  match k with
  | InvalidRequest m => Error ("Invalid request: " +:+ m)
  | AuthenticationError => Error "Invalid API key or authentication error"
  | LocationNotFound l => Error ("Location not found: " +:+ l)
  | RateLimitExceeded => Error "API rate limit exceeded"
  | UpstreamError m => Error ("Weather API error: " +:+ m)
  | UpstreamUnavailable =>
      Error "No response from weather service. Please try again later."
  end.

(** ** Counting calls in the trace *)
Definition isUpstreamCall (e : Event) : bool :=
  match e with
  | UpstreamCall _ _ _ => true
  | CacheSet _ _ _ => false
  end.

Definition isCacheSet (e : Event) : bool :=
  match e with
  | UpstreamCall _ _ _ => false
  | CacheSet _ _ _ => true
  end.

Definition upstreamCalls (w : World) : nat :=
  length (List.filter isUpstreamCall (log w)).

Definition cacheSets (w : World) : nat :=
  length (List.filter isCacheSet (log w)).

(** ** Sample data *)
Definition sampleEnv : Env :=
  {| WEATHER_API_KEY := Some "k-123";
     WEATHER_API_BASE_URL := Some "https://weather.example/timeline";
     CACHE_EXPIRATION := None |}.

Definition startWorld (env : Env) : World :=
  {| now := 0; heap := []; cache := newCache env; log := [] |}.

Definition london : Document :=
  {| data_message := None;
     resolvedAddress := Some "London, England, United Kingdom";
     address := Some "London";
     latitude := Some "51.5064"; longitude := Some "-0.12721";
     timezone := Some "Europe/London";
     currentConditions := Some "{temp:12}";
     days := ["d1"; "d2"; "d3"] |}.

Definition paris : Document :=
  {| data_message := None;
     resolvedAddress := Some "Paris, Ile-de-France, France";
     address := Some "Paris";
     latitude := Some "48.8572"; longitude := Some "2.34141";
     timezone := Some "Europe/Paris";
     currentConditions := Some "{temp:15}";
     days := ["p1"] |}.

(** ** Observations

    What the store would answer under a key, without the call's effects. *)
Definition live (key : string) (w : World) : option value :=
  match data (cache w) !! key with
  | Some e => if now w <? expiresAt e then Some (entry_value e) else None
  | None => None
  end.

(** What a reader finds under a key: the value of [cacheClient.get],
    looked up in the heap. *)
Definition observe (key : string) (w : World) : option Body :=
  match cacheClient.get nodeCache.api key w with
  | (Normal v, w') => deref v w'
  | (Throw _, _) => None
  end.

(** A body that makes a truthy [response.data]. *)
Definition truthyBody (b : Body) : bool :=
  match b with
  | BPrim p => truthy (VPrim p)
  | BDoc _ => true
  end.

(** Whether a fetch gets as far as calling the upstream provider: it has
    a location and an API key, and nothing truthy is live under its key. *)
Definition callsUpstream (env : Env) (location : string) (params : Params)
    (w : World) : bool :=
  Js.truthy location && Js.truthy (default "" (apiKey env)) &&
  negb (match live (generateCacheKey location params) w with
        | Some v => truthy v
        | None => false
        end).

(** Whether the upstream answer is stored: a response with status 200. *)
Definition stores (t : Transport) : bool :=
  match t with
  | Responded r _ => status r =? 200
  | _ => false
  end.

(** Over any store: the fetch gets as far as the upstream call.  It has a
    location and a key, and the cache client has nothing truthy for it. *)
Definition reachesUpstream (cache : NodeCacheApi) (env : Env)
    (location : string) (params : Params) (w : World) : Prop :=
  Js.truthy location = true /\
  Js.truthy (default "" (apiKey env)) = true /\
  exists v w1,
    cacheClient.get cache (generateCacheKey location params) w = (Normal v, w1) /\
    truthy v = false.

(** What else can happen to the store besides a [set]. *)
Inductive Op :=
| OpGet (key : string)
| OpDel (key : string)
| OpFlush
| OpSweep
| OpTick (d : Z)
| OpMutate (l : loc) (d : Document).

Definition step (w : World) (op : Op) : World :=
  match op with
  | OpGet key => (cacheClient.get nodeCache.api key w).2
  | OpDel key => (cacheClient.del nodeCache.api key w).2
  | OpFlush => (cacheClient.flushAll nodeCache.api w).2
  | OpSweep => nodeCache.checkData w
  | OpTick d => tick d w
  | OpMutate l d => mutate l d w
  end.

Definition run (ops : list Op) (w : World) : World := fold_left step ops w.

(** ** String search and case *)

Module JsString.

(** Whether [p] stands at the start of [s]. *)
Fixpoint startsWith (s p : string) : bool :=
  match p with
  | EmptyString => true
  | String a p' =>
      match s with
      | EmptyString => false
      | String b s' => Ascii.eqb a b && startsWith s' p'
      end
  end.

(** [s.includes(p)]: [p] stands somewhere in [s]. *)
Fixpoint includes (s p : string) : bool :=
  startsWith s p ||
  match s with
  | EmptyString => false
  | String _ s' => includes s' p
  end.

(** The lower-case form of a code unit below 256: [A-Z] and the accented
    capitals U+00C0 to U+00DE (but not the multiplication sign U+00D7) are
    32 below their lower-case letters. *)
Definition lowerChar (c : ascii) : ascii :=
  let n := N_of_ascii c in
  if (((65 <=? n) && (n <=? 90)) ||
      ((192 <=? n) && (n <=? 222) && negb (n =? 215)))%N
  then ascii_of_N (n + 32) else c.

(** [s.toLowerCase()] *)
Fixpoint toLowerCase (s : string) : string :=
  match s with
  | EmptyString => EmptyString
  | String c s' => String (lowerChar c) (toLowerCase s')
  end.

End JsString.

(** ** The request sent upstream ([services/weatherService.js], lines 55-60)

    [{...params, key: apiKey, unitGroup: params.unitGroup || 'metric'}] *)
Definition requestParams (env : Env) (params : Params) : Params :=
  assign "unitGroup"
    (match prop "unitGroup" params with
     | PValue s => if Js.truthy s then PValue s else PValue "metric"
     | _ => PValue "metric"
     end)
    (assign "key" (PValue (default "" (apiKey env))) params).

(** ** The routes ([routes/weatherRoutes.js])

    [req.query] is an object of strings, read by name (a repeated
    parameter, which arrives as an array, is not represented). *)

(** [if (v)] for a query value *)
Definition truthyParam (v : pvalue) : bool :=
  match v with
  | PValue s => Js.truthy s
  | _ => false
  end.

(** The parameters of [GET /:location] (lines 15-33): [params] starts
    empty and gets the query values that are truthy, in this order; the
    two dates only together. *)
Definition weatherParams (query : Params) : Params :=
  let unitGroup := prop "unitGroup" query in
  let include := prop "include" query in
  let elements := prop "elements" query in
  let startDate := prop "startDate" query in
  let endDate := prop "endDate" query in
  let params := [] in
  let params := if truthyParam unitGroup then assign "unitGroup" unitGroup params else params in
  let params := if truthyParam include then assign "include" include params else params in
  let params := if truthyParam elements then assign "elements" elements params else params in
  if truthyParam startDate && truthyParam endDate
  then assign "endDate" endDate (assign "startDate" startDate params)
  else params.

(** [unitGroup || 'metric'] *)
Definition orMetric (unitGroup : pvalue) : pvalue :=
  if truthyParam unitGroup then unitGroup else PValue "metric".

(** The parameters of [GET /:location/current] (lines 73-76). *)
Definition currentParams (query : Params) : Params :=
  [("include", PValue "current");
   ("unitGroup", orMetric (prop "unitGroup" query))].

(** The parameters of [GET /:location/forecast] (lines 124-127). *)
Definition forecastParams (query : Params) : Params :=
  [("include", PValue "days");
   ("unitGroup", orMetric (prop "unitGroup" query))].

(** The status code of an error reply, by the text of the message (lines
    42-53, and the same in the other two handlers). *)
Definition statusCodeOf (message : string) : Z :=
  if JsString.includes message "Location not found" then 404
  else if JsString.includes message "Invalid request" then 400
  else if JsString.includes message "API key" ||
          JsString.includes message "authentication" then 401
  else if JsString.includes message "rate limit" then 429
  else 500.

(** What a handler sends: [res.json(weatherData)], or
    [res.status(statusCode).json({error: true, message})]. *)
Inductive Reply :=
| Json (weatherData : value)
| JsonError (statusCode : Z) (message : string).

(** The handler of [GET /:location] (lines 10-60). *)
Definition weatherRoute (cache : NodeCacheApi) (env : Env) (t : Transport)
    (location : string) (query : Params) : M Reply :=
  try_catch
    (let params := weatherParams query in
     let* weatherData := getWeatherData cache env t location params in
     ret (Json weatherData))
    (fun error => ret (JsonError (statusCodeOf (message error)) (message error))).

(** ** Startup ([index.js]) *)

(** [checkEnvironment] (lines 10-27): the API key is set and is not the
    placeholder. *)
Definition checkEnvironment (env : Env) : bool :=
  let apiKey := WEATHER_API_KEY env in
  if negb (Js.truthy (default "" apiKey)) then false
  else if String.eqb (default "" apiKey) "ABC123XYZ456" then false
  else true.

(** How startup ends: a server listens on a port, or the process exits. *)
Inductive Startup (P : Type) :=
| Listening (port : P)
| Exit (code : Z).
Arguments Listening {P} port.
Arguments Exit {P} code.

(** [startServerOnAvailablePort(ports, index)] (lines 89-125), on the
    ports from [index] on.  [listens index port] tells whether the attempt
    number [index] gets the server to listen on [port]; when it does not
    (the port is in use, or [listen] fails otherwise) the next port is
    tried, and after the last one the process exits with code 1. *)
Fixpoint startFrom {P : Type} (listens : nat -> P -> bool) (rest : list P)
    (index : nat) : Startup P :=
  match rest with
  | [] => Exit 1
  | port :: rest' =>
      if listens index port then Listening port
      else startFrom listens rest' (S index)
  end.

Definition startServerOnAvailablePort {P : Type} (listens : nat -> P -> bool)
    (ports : list P) (index : nat) : Startup P :=
  startFrom listens (drop index ports) index.

(** [[PORT, 8080, 3000, 5000, 9090, 9091, 9092]] with
    [PORT = process.env.PORT || 9090] (lines 31 and 129); a port is kept
    as its text. *)
Definition portOptions (PORT : option string) : list string :=
  [ (if Js.truthy (default "" PORT) then default "" PORT else "9090");
    "8080"; "3000"; "5000"; "9090"; "9091"; "9092" ].

(** The end of [index.js] (lines 127-135). *)
Definition main (env : Env) (PORT : option string)
    (listens : nat -> string -> bool) : Startup string :=
  if checkEnvironment env
  then startServerOnAvailablePort listens (portOptions PORT) 0
  else Exit 1.

(** ** The console client ([cli-weather.js]) *)

(** [generateCacheKey] (lines 24-26) *)
Definition cli_generateCacheKey (location : string) : string :=
  "weather:" +:+ JsString.toLowerCase location.

(** * Properties *)

(** ** The conversions on sample inputs *)

Example ToNumber_exponent : Js.ToNumber "1e3" = Js.Dec 1 3.
Proof. reflexivity. Qed.

Example ToNumber_signed_exponent : Js.ToNumber "1e+2" = Js.Dec 1 2.
Proof. reflexivity. Qed.

Example ToNumber_trims : Js.ToNumber " 12 " = Js.Dec 12 0.
Proof. reflexivity. Qed.

Example ToNumber_leading_zeros : Js.ToNumber "00012" = Js.Dec 12 0.
Proof. reflexivity. Qed.

Example ToNumber_fraction : Js.ToNumber "0.5" = Js.Dec 5 (-1).
Proof. reflexivity. Qed.

Example ToNumber_signed_fraction : Js.ToNumber "-12.5e-1" = Js.Dec (-125) (-2).
Proof. reflexivity. Qed.

Example ToNumber_point_first : Js.ToNumber ".5e1" = Js.Dec 5 0.
Proof. reflexivity. Qed.

Example ToNumber_point_last : Js.ToNumber "5." = Js.Dec 5 0.
Proof. reflexivity. Qed.

Example ToNumber_point_alone : Js.ToNumber "." = Js.NaN.
Proof. reflexivity. Qed.

Example ToNumber_sign_alone : Js.ToNumber "-" = Js.NaN.
Proof. reflexivity. Qed.

Example ToNumber_exponent_without_digits : Js.ToNumber "1e" = Js.NaN.
Proof. reflexivity. Qed.

Example ToNumber_inner_space : Js.ToNumber "1 2" = Js.NaN.
Proof. reflexivity. Qed.

Example ToNumber_empty : Js.ToNumber "" = Js.Dec 0 0.
Proof. reflexivity. Qed.

Example ToNumber_blank : Js.ToNumber "   " = Js.Dec 0 0.
Proof. reflexivity. Qed.

Example ToNumber_Infinity : Js.ToNumber "Infinity" = Js.PosInfinity.
Proof. reflexivity. Qed.

Example ToNumber_minus_Infinity : Js.ToNumber "-Infinity" = Js.NegInfinity.
Proof. reflexivity. Qed.

Example ToNumber_hex : Js.ToNumber "0x1f" = Js.Dec 31 0.
Proof. reflexivity. Qed.

Example ToNumber_hex_without_digits : Js.ToNumber "0x" = Js.NaN.
Proof. reflexivity. Qed.

Example ToNumber_signed_hex : Js.ToNumber "-0x1f" = Js.NaN.
Proof. reflexivity. Qed.

Example ToNumber_binary : Js.ToNumber "0b11" = Js.Dec 3 0.
Proof. reflexivity. Qed.

Example ToNumber_word : Js.ToNumber "abc" = Js.NaN.
Proof. reflexivity. Qed.

Example gtZero_underflow : Js.gtZero (Js.ToNumber "1e-400") = false.
Proof. vm_compute. reflexivity. Qed.

Example gtZero_least_double : Js.gtZero (Js.ToNumber "5e-324") = true.
Proof. vm_compute. reflexivity. Qed.

Example gtZero_below_half_least_double : Js.gtZero (Js.ToNumber "2e-324") = false.
Proof. vm_compute. reflexivity. Qed.

Example parseInt_stops_at_exponent : Js.parseInt "1e3" = Some 1.
Proof. reflexivity. Qed.

Example parseInt_signed_hex : Js.parseInt "  -0x1fz" = Some (-31).
Proof. reflexivity. Qed.

Example parseInt_binary : Js.parseInt "0b11" = Some 0.
Proof. reflexivity. Qed.

Example parseInt_Infinity : Js.parseInt "Infinity" = None.
Proof. reflexivity. Qed.

Example cacheExpiration_unset :
  cacheExpiration {| WEATHER_API_KEY := None; WEATHER_API_BASE_URL := None;
                     CACHE_EXPIRATION := None |} = 43200.
Proof. reflexivity. Qed.

Example cacheExpiration_zero :
  cacheExpiration {| WEATHER_API_KEY := None; WEATHER_API_BASE_URL := None;
                     CACHE_EXPIRATION := Some "0" |} = 43200.
Proof. reflexivity. Qed.

Example cacheExpiration_given :
  cacheExpiration {| WEATHER_API_KEY := None; WEATHER_API_BASE_URL := None;
                     CACHE_EXPIRATION := Some "600" |} = 600.
Proof. reflexivity. Qed.

Example generateCacheKey_plain : generateCacheKey "London" [] = "weather:London".
Proof. reflexivity. Qed.

Example generateCacheKey_params :
  generateCacheKey "London"
    [("include", PValue "days"); ("elements", PUndefined); ("unitGroup", PValue "metric")]
  = "weather:London:include=days&unitGroup=metric".
Proof. reflexivity. Qed.

Example forecast_five_of_ten :
  forecastDays ["1"; "2"; "3"; "4"; "5"; "6"; "7"; "8"; "9"; "10"] (Some "5")
  = ["1"; "2"; "3"; "4"; "5"].
Proof. vm_compute. reflexivity. Qed.

Example forecast_zero :
  forecastDays ["1"; "2"; "3"] (Some "0") = ["1"; "2"; "3"].
Proof. vm_compute. reflexivity. Qed.

Example forecast_negative :
  forecastDays ["1"; "2"; "3"] (Some "-2") = ["1"; "2"; "3"].
Proof. vm_compute. reflexivity. Qed.

Example forecast_word :
  forecastDays ["1"; "2"; "3"] (Some "abc") = ["1"; "2"; "3"].
Proof. vm_compute. reflexivity. Qed.

Example forecast_fraction :
  forecastDays ["1"; "2"; "3"] (Some "0.5") = [].
Proof. vm_compute. reflexivity. Qed.

Example forecast_Infinity :
  forecastDays ["1"; "2"; "3"] (Some "Infinity") = [].
Proof. vm_compute. reflexivity. Qed.

(** ** Reading the cache never throws *)

(** C10: for every behaviour of the store's [get], returning or throwing,
    [cacheClient.get] returns: the value the store returned, or [null] when
    the store returned nothing or threw. *)
Theorem cacheClient_get_total (cache : NodeCacheApi) (key : string) (w : World) :
  exists v w',
    cacheClient.get cache key w = (Normal v, w') /\
    w' = (cache_get cache key w).2 /\
    v = match (cache_get cache key w).1 with
        | Normal (Some x) => x
        | Normal None => null
        | Throw _ => null
        end.
Proof.
  unfold cacheClient.get, try_catch, bind, ret.
  destruct (cache_get cache key w) as [[[x|]|e] w']; simpl; eauto.
Qed.

(** ** Error classification *)

Section Classification.
Context (cache : NodeCacheApi) (env : Env).

Lemma rejected_response_handled location params w r latency :
  reachesUpstream cache env location params w ->
  ~ (200 <= status r < 300) ->
  exists w',
    getWeatherData cache env (Responded r latency) location params w
    = handler location
        {| message := "Request failed with status code " +:+ pretty (status r);
           response := Some r; request := true |} w'.
Proof.
  intros (Hl & Hk & v & w1 & Hget & Hv) Hs.
  unfold getWeatherData, try_catch at 1, bind.
  rewrite Hl, Hk. simpl. rewrite Hget, Hv.
  unfold axios_get, bind, trace. simpl.
  destruct ((200 <=? status r) && (status r <? 300)) eqn:E.
  - apply andb_true_iff in E as [E1 E2]. lia.
  - eauto.
Qed.

Lemma no_response_handled location params w msg latency :
  reachesUpstream cache env location params w ->
  exists w',
    getWeatherData cache env (NoResponse msg latency) location params w
    = handler location
        {| message := msg; response := None; request := true |} w'.
Proof.
  intros (Hl & Hk & v & w1 & Hget & Hv).
  unfold getWeatherData, try_catch at 1, bind.
  rewrite Hl, Hk. simpl. rewrite Hget, Hv.
  unfold axios_get, bind, trace. simpl. eauto.
Qed.

(** C2: a fetch whose upstream call is answered with a status outside
    2xx fails with the error of that status: 400 InvalidRequest, 401 and
    403 AuthenticationError, 404 LocationNotFound, 429 RateLimitExceeded,
    any other UpstreamError; and a fetch whose request gets no response
    fails with UpstreamUnavailable. *)
Theorem error_classification location params w r latency :
  reachesUpstream cache env location params w ->
  ~ (200 <= status r < 300) ->
  let result := (getWeatherData cache env (Responded r latency) location params w).1 in
  (status r = 400 ->
     result = Throw (thrown (InvalidRequest (errorMessageOf r)))) /\
  (status r = 401 \/ status r = 403 ->
     result = Throw (thrown AuthenticationError)) /\
  (status r = 404 ->
     result = Throw (thrown (LocationNotFound location))) /\
  (status r = 429 ->
     result = Throw (thrown RateLimitExceeded)) /\
  (status r <> 400 -> status r <> 401 -> status r <> 403 ->
   status r <> 404 -> status r <> 429 ->
     result = Throw (thrown (UpstreamError (errorMessageOf r)))) /\
  (forall msg latency',
     (getWeatherData cache env (NoResponse msg latency') location params w).1
     = Throw (thrown UpstreamUnavailable)).
Proof.
  intros Hr Hs result.
  destruct (rejected_response_handled location params w r latency Hr Hs)
    as [w' Hw'].
  subst result. rewrite Hw'. unfold handler, throw. simpl.
  repeat split.
  - intros ->. reflexivity.
  - intros [-> | ->]; reflexivity.
  - intros ->. reflexivity.
  - intros ->. reflexivity.
  - intros H0 H1 H3 H4 H9.
    repeat match goal with
           | |- context [?a =? ?b] =>
               destruct (Z.eqb_spec a b); [lia|]; simpl
           end.
    reflexivity.
  - intros msg latency'.
    destruct (no_response_handled location params w msg latency' Hr) as [w2 ->].
    reflexivity.
Qed.
End Classification.

Lemma sample_reachesUpstream :
  reachesUpstream nodeCache.api sampleEnv "Atlantis" [] (startWorld sampleEnv).
Proof.
  split; [reflexivity|]. split; [reflexivity|].
  eexists _, _. split; [vm_compute; reflexivity | reflexivity].
Qed.

Lemma error_classification_witness :
  (getWeatherData nodeCache.api sampleEnv
     (Responded {| status := 404; statusText := "Not Found"; body := BPrim (PStr "Bad location") |} 1)
     "Atlantis" [] (startWorld sampleEnv)).1
  = Throw (thrown (LocationNotFound "Atlantis")).
Proof.
  refine (proj1 (proj2 (proj2
    (error_classification nodeCache.api sampleEnv "Atlantis" []
       (startWorld sampleEnv)
       {| status := 404; statusText := "Not Found"; body := BPrim (PStr "Bad location") |}
       1%nat sample_reachesUpstream _))) _).
  - simpl. lia.
  - reflexivity.
Defined.


(** ** Key derivation *)

(** C4 (as stated, refuted): the same two entries in two orders derive two
    keys. *)
Lemma cache_key_depends_on_order :
  Permutation
    [("unitGroup", PValue "metric"); ("include", PValue "days")]
    [("include", PValue "days"); ("unitGroup", PValue "metric")] /\
  generateCacheKey "London"
    [("unitGroup", PValue "metric"); ("include", PValue "days")]
  <> generateCacheKey "London"
    [("include", PValue "days"); ("unitGroup", PValue "metric")].
Proof.
  split.
  - apply perm_swap.
  - vm_compute. discriminate.
Qed.

(** C4 (amended): the key is a function of the location and of the defined
    entries in their enumeration order; entries whose value is [undefined]
    or [null] do not count, wherever they stand. *)
Theorem cache_key_of_defined_entries (location : string) (params1 params2 : Params) :
  List.filter defined params1 = List.filter defined params2 ->
  generateCacheKey location params1 = generateCacheKey location params2.
Proof.
  intros H. unfold generateCacheKey. rewrite H. reflexivity.
Qed.

Lemma cache_key_of_defined_entries_witness :
  generateCacheKey "London"
    [("unitGroup", PValue "metric"); ("include", PUndefined)]
  = generateCacheKey "London"
    [("elements", PNullV); ("unitGroup", PValue "metric")].
Proof.
  apply (cache_key_of_defined_entries "London"
           [("unitGroup", PValue "metric"); ("include", PUndefined)]
           [("elements", PNullV); ("unitGroup", PValue "metric")]).
  reflexivity.
Defined.

(** ** Forecast truncation *)

Section Forecast.
Context {A : Type}.
Implicit Types (l : list A) (cs : list ascii).

(** A requested count that is absent, not numeric or not above zero
    leaves the sequence as it is. *)
Lemma forecast_absent l : forecastDays l None = l.
Proof. reflexivity. Qed.

Lemma forecast_ignored l (d : string) :
  Js.isNaN d = true \/ Js.gtZero (Js.ToNumber d) = false ->
  forecastDays l (Some d) = l.
Proof.
  unfold forecastDays. intros [-> | ->].
  - rewrite andb_false_r. reflexivity.
  - rewrite andb_false_r. reflexivity.
Qed.

Lemma decimalDigit_not_space c :
  Js.isDecimalDigit c = true -> Js.isWhiteSpace c = false.
Proof.
  unfold Js.isDecimalDigit, Js.radixDigit, Js.digitValue, Js.isWhiteSpace.
  set (n := Z.of_N (N_of_ascii c)).
  destruct ((48 <=? n) && (n <=? 57)) eqn:E1.
  - apply andb_true_iff in E1 as [? ?]. intros _.
    repeat (apply orb_false_iff; split); try apply andb_false_iff; lia.
  - destruct ((97 <=? n) && (n <=? 122)) eqn:E2.
    + apply andb_true_iff in E2 as [? ?].
      destruct (n - 87 <? 10) eqn:E; [lia | discriminate].
    + destruct ((65 <=? n) && (n <=? 90)) eqn:E3; [|discriminate].
      apply andb_true_iff in E3 as [? ?].
      destruct (n - 55 <? 10) eqn:E; [lia | discriminate].
Qed.

Lemma decimalDigit_neq c (x : ascii) :
  Js.isDecimalDigit c = true -> Js.isDecimalDigit x = false -> Ascii.eqb c x = false.
Proof.
  intros Hc Hx. destruct (Ascii.eqb_spec c x); [congruence | reflexivity].
Qed.

Lemma scanDigits_all cs acc :
  forallb Js.isDecimalDigit cs = true ->
  Js.scanDigits 10 acc cs = (Js.decimalValue acc cs, length cs, []).
Proof.
  revert acc. induction cs as [|c r IH]; intros acc H; simpl in *.
  - reflexivity.
  - apply andb_true_iff in H as [Hc Hr].
    unfold Js.isDecimalDigit in Hc.
    destruct (Js.radixDigit 10 c) as [d|] eqn:E; [|discriminate].
    rewrite (IH _ Hr). reflexivity.
Qed.

Lemma dropWhiteSpace_digits cs :
  forallb Js.isDecimalDigit cs = true -> Js.dropWhiteSpace cs = cs.
Proof.
  destruct cs as [|c r]; simpl; [reflexivity|].
  intros H. apply andb_true_iff in H as [Hc _].
  rewrite (decimalDigit_not_space c Hc). reflexivity.
Qed.

Lemma trim_digits cs :
  forallb Js.isDecimalDigit cs = true -> Js.trim cs = cs.
Proof.
  intros H. unfold Js.trim. rewrite (dropWhiteSpace_digits cs H).
  rewrite dropWhiteSpace_digits.
  - apply rev_involutive.
  - rewrite forallb_forall in *. intros x Hx. apply H, in_rev, Hx.
Qed.

Lemma radixPrefix_digits lo up cs :
  Js.isDecimalDigit lo = false -> Js.isDecimalDigit up = false ->
  forallb Js.isDecimalDigit cs = true -> Js.radixPrefix lo up cs = None.
Proof.
  intros Hlo Hup H. destruct cs as [|c0 [|c1 r]]; try reflexivity.
  simpl in H. apply andb_true_iff in H as [_ H].
  apply andb_true_iff in H as [H1 _]. simpl.
  rewrite (decimalDigit_neq c1 lo H1 Hlo), (decimalDigit_neq c1 up H1 Hup).
  rewrite andb_false_r. reflexivity.
Qed.

Lemma stripSign_digits cs :
  forallb Js.isDecimalDigit cs = true -> Js.stripSign cs = (1, cs).
Proof.
  destruct cs as [|c r]; simpl; [reflexivity|].
  intros H. apply andb_true_iff in H as [Hc _].
  rewrite (decimalDigit_neq c "-" Hc eq_refl), (decimalDigit_neq c "+" Hc eq_refl).
  reflexivity.
Qed.

Lemma ToNumber_digits (s : string) :
  s <> "" ->
  forallb Js.isDecimalDigit (list_ascii_of_string s) = true ->
  Js.ToNumber s = Js.Dec (Js.decimalValue 0 (list_ascii_of_string s)) 0.
Proof.
  intros Hs H. unfold Js.ToNumber, Js.stringToNumber.
  rewrite (trim_digits _ H).
  destruct (list_ascii_of_string s) as [|c r] eqn:E.
  { destruct s; [congruence | discriminate]. }
  unfold Js.strNumericLiteral.
  rewrite !radixPrefix_digits by (reflexivity || assumption).
  rewrite (stripSign_digits _ H). simpl (1 =? 1).
  unfold Js.strUnsignedDecimalLiteral.
  destruct (decide (c :: r = list_ascii_of_string "Infinity")) as [E'|_].
  { rewrite E' in H. discriminate. }
  rewrite (scanDigits_all _ _ H). reflexivity.
Qed.

Lemma parseInt_digits (s : string) :
  s <> "" ->
  forallb Js.isDecimalDigit (list_ascii_of_string s) = true ->
  Js.parseInt s = Some (Js.decimalValue 0 (list_ascii_of_string s)).
Proof.
  intros Hs H. unfold Js.parseInt.
  rewrite (dropWhiteSpace_digits _ H), (stripSign_digits _ H).
  rewrite radixPrefix_digits by (reflexivity || assumption).
  rewrite (scanDigits_all _ _ H).
  destruct (list_ascii_of_string s) as [|c r] eqn:E.
  { destruct s; [congruence | discriminate]. }
  simpl length. f_equal. lia.
Qed.

(** On a count written in decimal digits the projection does what the
    specification says: the first [min c n] days for a positive [c], all
    of them for [0]. *)
Lemma forecast_decimal_count l (s : string) :
  s <> "" ->
  forallb Js.isDecimalDigit (list_ascii_of_string s) = true ->
  let c := Js.decimalValue 0 (list_ascii_of_string s) in
  forecastDays l (Some s)
  = if 0 <? c then take (Z.to_nat (Z.min c (Z.of_nat (length l)))) l else l.
Proof.
  intros Hs H c. unfold forecastDays, Js.isNaN.
  rewrite (ToNumber_digits s Hs H), (parseInt_digits s Hs H). fold c.
  destruct s; [congruence|]. simpl Js.truthy. simpl negb.
  unfold Js.gtZero. simpl (0 <=? 0). rewrite andb_true_r. simpl andb.
  destruct (Z.ltb_spec 0 c); [|reflexivity].
  unfold Js.slice0. simpl default.
  destruct (Z.ltb_spec c 0); [lia|]. reflexivity.
Qed.
End Forecast.

(** C8 (the sources at the failing input): the count [1e3] is numeric and
    above zero, so the guard lets it through, but [parseInt] reads only its
    leading [1]: of three days the handler returns one, where the first
    [min 1000 3] are all three. *)
Theorem forecast_exponent_count :
  Js.truthy "1e3" = true /\
  Js.ToNumber "1e3" = Js.Dec 1 3 /\
  Js.gtZero (Js.ToNumber "1e3") = true /\
  Js.parseInt "1e3" = Some 1 /\
  forecastDays ["d1"; "d2"; "d3"] (Some "1e3") = ["d1"] /\
  take (Z.to_nat (Z.min 1000 3)) ["d1"; "d2"; "d3"] = ["d1"; "d2"; "d3"].
Proof. repeat split. Qed.


(** ** The store *)

(** The cases of [transfer]: by reference, a primitive, a document copied,
    a dangling reference. *)
Ltac transfer_cases v w :=
  unfold nodeCache.transfer, nodeCache.clone;
  destruct (useClones (cache w)); [|reflexivity];
  destruct v as [?|?]; [reflexivity|];
  match goal with
  | |- context [heap w !! ?l] => destruct (heap w !! l); reflexivity
  end.

Lemma transfer_now v w : now (nodeCache.transfer v w).2 = now w.
Proof. transfer_cases v w. Qed.

Lemma transfer_cache v w : cache (nodeCache.transfer v w).2 = cache w.
Proof. transfer_cases v w. Qed.

Lemma transfer_log v w : log (nodeCache.transfer v w).2 = log w.
Proof. transfer_cases v w. Qed.

Lemma transfer_by_reference v w :
  useClones (cache w) = false -> nodeCache.transfer v w = (v, w).
Proof. unfold nodeCache.transfer. intros ->. reflexivity. Qed.

(** The store's [get], by what is live under the key. *)
Lemma nodeCache_get_live key w :
  (nodeCache.get key w).1
  = Normal (match live key w with
            | Some v => Some (nodeCache.transfer v w).1
            | None => None
            end).
Proof.
  unfold nodeCache.get, live.
  destruct (data (cache w) !! key) as [e|]; [|reflexivity].
  destruct (now w <? expiresAt e); [|reflexivity].
  destruct (nodeCache.transfer (entry_value e) w). reflexivity.
Qed.

(** The sweep removes nothing that is live. *)
Lemma live_checkData key w : live key (nodeCache.checkData w) = live key w.
Proof.
  unfold live, nodeCache.checkData. simpl.
  destruct (data (cache w) !! key) as [e|] eqn:E.
  - destruct (Z.ltb_spec (now w) (expiresAt e)).
    + erewrite map_lookup_filter_Some_2; [|exact E|simpl; lia].
      destruct (Z.ltb_spec (now w) (expiresAt e)); [reflexivity | lia].
    + rewrite map_lookup_filter_None_2; [reflexivity|].
      right. intros e' He'. simpl. rewrite E in He'. inversion He'. subst. lia.
  - rewrite map_lookup_filter_None_2; [reflexivity|]. left. exact E.
Qed.

(** [cacheClient] over the store, call by call. *)
Lemma cacheClient_get_eq key w :
  cacheClient.get nodeCache.api key w
  = match live key w with
    | Some v =>
        let '(v', w') := nodeCache.transfer v w in
        (Normal v', with_cache (nodeCache.hit (cache w')) w')
    | None => (Normal null, with_cache (nodeCache.miss (cache w)) w)
    end.
Proof.
  unfold cacheClient.get, try_catch, bind, ret, live. simpl.
  unfold nodeCache.get.
  destruct (data (cache w) !! key) as [e|]; [|reflexivity].
  destruct (now w <? expiresAt e); [|reflexivity].
  destruct (nodeCache.transfer (entry_value e) w). reflexivity.
Qed.

Lemma cacheClient_set_eq baseline key v EX w :
  cacheClient.set nodeCache.api baseline key v EX w
  = let ttl := cacheClient.ttlOf baseline EX in
    let w0 := with_log (log w ++ [CacheSet key v ttl]) w in
    if ttl <=? 0 then (Throw nodeCache.InvalidArgument, w0)
    else
      let '(v', w') := nodeCache.transfer v w0 in
      (Normal "OK",
       with_cache
         (with_data
            (<[key := {| entry_value := v'; expiresAt := now w + ttl |}]>
               (data (cache w')))
            (cache w'))
         w').
Proof.
  unfold cacheClient.set, try_catch, bind, trace, ret, throw. simpl.
  unfold nodeCache.set. simpl.
  destruct (cacheClient.ttlOf baseline EX <=? 0); [reflexivity|].
  destruct (nodeCache.transfer v _). reflexivity.
Qed.

(** A read leaves the table as it is. *)
Lemma cacheClient_get_data key w :
  data (cache (cacheClient.get nodeCache.api key w).2) = data (cache w).
Proof.
  rewrite cacheClient_get_eq.
  destruct (live key w) as [v|]; [|reflexivity].
  pose proof (transfer_cache v w) as H.
  destruct (nodeCache.transfer v w) as [v' w']. simpl in *. rewrite H. reflexivity.
Qed.

Lemma live_empty key w : data (cache w) = ∅ -> live key w = None.
Proof. unfold live. intros ->. rewrite lookup_empty. reflexivity. Qed.

(** Without a [set], an empty table stays empty. *)
Lemma step_empty w op : data (cache w) = ∅ -> data (cache (step w op)) = ∅.
Proof.
  intros H. destruct op as [key|key| | |d|l d]; unfold step.
  - rewrite cacheClient_get_data. exact H.
  - unfold cacheClient.del, try_catch, bind, ret. simpl.
    unfold nodeCache.del. rewrite H, lookup_empty. simpl. exact H.
  - reflexivity.
  - unfold nodeCache.checkData. simpl. rewrite H. apply map_filter_empty.
  - exact H.
  - exact H.
Qed.

Lemma run_empty ops w : data (cache w) = ∅ -> data (cache (run ops w)) = ∅.
Proof.
  revert w. induction ops as [|op ops IH]; intros w H; simpl; [exact H|].
  apply IH, step_empty, H.
Qed.

(** C5: under every key, a [get] returns a value exactly when the key has
    an entry and the clock is strictly before its [expiresAt], and the
    value is then the entry's.  This holds of the store's [get] and of
    [cacheClient.get], which answers [null] for nothing: [cacheClient.get]
    returns the value of an entry that has not expired, and [null] when
    the key has no entry or the entry's expiry has passed, while it is
    still in the table; whether the sweep has run makes no difference to
    either answer. *)
Theorem get_observable_iff_unexpired (key : string) (w : World) :
  (forall v,
     (nodeCache.get key w).1 = Normal (Some v) <->
     exists e, data (cache w) !! key = Some e /\ now w < expiresAt e /\
               v = (nodeCache.transfer (entry_value e) w).1) /\
  (forall e, data (cache w) !! key = Some e -> expiresAt e <= now w ->
     (nodeCache.get key w).1 = Normal None /\
     (cacheClient.get nodeCache.api key w).1 = Normal null) /\
  (nodeCache.get key (nodeCache.checkData w)).1 = (nodeCache.get key w).1 /\
  (forall v, v <> null ->
     (cacheClient.get nodeCache.api key w).1 = Normal v <->
     exists e, data (cache w) !! key = Some e /\ now w < expiresAt e /\
               v = (nodeCache.transfer (entry_value e) w).1) /\
  (forall e, data (cache w) !! key = Some e -> now w < expiresAt e ->
     (cacheClient.get nodeCache.api key w).1
     = Normal (nodeCache.transfer (entry_value e) w).1) /\
  (data (cache w) !! key = None ->
     (cacheClient.get nodeCache.api key w).1 = Normal null) /\
  (cacheClient.get nodeCache.api key (nodeCache.checkData w)).1
  = (cacheClient.get nodeCache.api key w).1.
Proof.
  assert (Hclient : forall w0,
            (cacheClient.get nodeCache.api key w0).1
            = Normal (match live key w0 with
                      | Some v => (nodeCache.transfer v w0).1
                      | None => null
                      end)).
  { intros w0. rewrite cacheClient_get_eq.
    destruct (live key w0) as [v|]; [|reflexivity].
    destruct (nodeCache.transfer v w0). reflexivity. }
  assert (Hsweep : forall v,
            (nodeCache.transfer v (nodeCache.checkData w)).1
            = (nodeCache.transfer v w).1).
  { intros v.
    unfold nodeCache.transfer, nodeCache.clone, nodeCache.checkData. simpl.
    destruct (useClones (cache w)); [|reflexivity].
    destruct v as [p|l]; [reflexivity|].
    destruct (heap w !! l); reflexivity. }
  split; [|split; [|split; [|split; [|split; [|split]]]]].
  - intros v. rewrite nodeCache_get_live. unfold live. split.
    + destruct (data (cache w) !! key) as [e|]; [|discriminate].
      destruct (Z.ltb_spec (now w) (expiresAt e)); [|discriminate].
      intros Hv. inversion Hv. eauto.
    + intros (e & -> & Hlt & ->).
      destruct (Z.ltb_spec (now w) (expiresAt e)); [reflexivity | lia].
  - intros e He Hexp. split.
    + rewrite nodeCache_get_live. unfold live. rewrite He.
      destruct (Z.ltb_spec (now w) (expiresAt e)); [lia | reflexivity].
    + rewrite Hclient. unfold live. rewrite He.
      destruct (Z.ltb_spec (now w) (expiresAt e)); [lia | reflexivity].
  - rewrite !nodeCache_get_live, live_checkData.
    destruct (live key w) as [v|]; [|reflexivity].
    rewrite Hsweep. reflexivity.
  - intros v Hv. rewrite Hclient. unfold live. split.
    + destruct (data (cache w) !! key) as [e|]; [|congruence].
      destruct (Z.ltb_spec (now w) (expiresAt e)); [|congruence].
      intros Hget. inversion Hget. eauto.
    + intros (e & -> & Hlt & ->).
      destruct (Z.ltb_spec (now w) (expiresAt e)); [reflexivity | lia].
  - intros e He Hlt. rewrite Hclient. unfold live. rewrite He.
    destruct (Z.ltb_spec (now w) (expiresAt e)); [reflexivity | lia].
  - intros He. rewrite Hclient. unfold live. rewrite He. reflexivity.
  - rewrite !Hclient, live_checkData.
    destruct (live key w) as [v|]; [|reflexivity].
    rewrite Hsweep. reflexivity.
Qed.

(** An entry set with the baseline TTL of 43200 seconds is read back
    through [cacheClient.get] one second before its expiry, and is
    answered [null] one second after it, though no sweep has removed it. *)
Lemma get_observable_iff_unexpired_witness :
  (cacheClient.get nodeCache.api "k"
     (tick 43199
       (cacheClient.set nodeCache.api 43200 "k" (VPrim (PStr "v")) None
          (startWorld sampleEnv)).2)).1
  = Normal (VPrim (PStr "v")) /\
  (cacheClient.get nodeCache.api "k"
     (tick 43201
       (cacheClient.set nodeCache.api 43200 "k" (VPrim (PStr "v")) None
          (startWorld sampleEnv)).2)).1
  = Normal null /\
  data (cache
     (tick 43201
       (cacheClient.set nodeCache.api 43200 "k" (VPrim (PStr "v")) None
          (startWorld sampleEnv)).2)) !! "k"
  = Some {| entry_value := VPrim (PStr "v"); expiresAt := 43200 |}.
Proof.
  split; [|split].
  - refine (proj1 (proj2 (proj2 (proj2 (proj2
      (get_observable_iff_unexpired "k"
         (tick 43199
           (cacheClient.set nodeCache.api 43200 "k" (VPrim (PStr "v")) None
          (startWorld sampleEnv)).2))))))
      {| entry_value := VPrim (PStr "v"); expiresAt := 43200 |} _ _).
    + vm_compute. reflexivity.
    + vm_compute. reflexivity.
  - refine (proj2 (proj1 (proj2
      (get_observable_iff_unexpired "k"
         (tick 43201
           (cacheClient.set nodeCache.api 43200 "k" (VPrim (PStr "v")) None
          (startWorld sampleEnv)).2)))
      {| entry_value := VPrim (PStr "v"); expiresAt := 43200 |} _ _)).
    + vm_compute. reflexivity.
    + vm_compute. intros H. discriminate.
  - vm_compute. reflexivity.
Defined.

(** ** TTL of a [set] *)

(** C6 (as stated, refuted): a [set] with the TTL 0, which is not a
    positive integer, succeeds: the entry gets the baseline TTL. *)
Lemma set_zero_ttl_succeeds :
  ~ 0 < 0 /\
  (cacheClient.set nodeCache.api (cacheExpiration sampleEnv) "k"
     (VPrim (PStr "v")) (Some 0) (startWorld sampleEnv)).1 = Normal "OK" /\
  expiresAt <$>
    data (cache (cacheClient.set nodeCache.api (cacheExpiration sampleEnv) "k"
                   (VPrim (PStr "v")) (Some 0) (startWorld sampleEnv)).2) !! "k"
  = Some 43200.
Proof.
  split; [lia|]. split; vm_compute; reflexivity.
Qed.

(** C6 (amended): [cacheClient.set] does not validate the TTL.  A TTL of 0
    is treated like one that was not supplied; in both cases the store is
    called with the configured baseline, 43200 seconds when
    [CACHE_EXPIRATION] is unset, and with a positive baseline the call
    succeeds and the entry expires that long after the call.  Any other TTL
    is handed to the store as it is, and [set] throws only what the store's
    [set] throws. *)
Theorem set_ttl_defaulting (store : NodeCacheApi) (baseline : Z)
    (key : string) (v : value) (w : World) :
  cacheClient.set store baseline key v (Some 0) w
  = cacheClient.set store baseline key v None w /\
  cacheClient.ttlOf baseline None = baseline /\
  (forall z, z <> 0 -> cacheClient.ttlOf baseline (Some z) = z) /\
  (forall EX,
     let ttl := cacheClient.ttlOf baseline EX in
     let w0 := with_log (log w ++ [CacheSet key v ttl]) w in
     cacheClient.set store baseline key v EX w
     = match cache_set store key v (Some ttl) w0 with
       | (Normal _, w') => (Normal "OK", w')
       | (Throw e, w') => (Throw e, w')
       end) /\
  (0 < baseline ->
   exists w',
     cacheClient.set nodeCache.api baseline key v None w = (Normal "OK", w') /\
     expiresAt <$> data (cache w') !! key = Some (now w + baseline)) /\
  cacheExpiration
    {| WEATHER_API_KEY := None; WEATHER_API_BASE_URL := None;
       CACHE_EXPIRATION := None |} = 43200.
Proof.
  repeat split.
  - intros z Hz. unfold cacheClient.ttlOf.
    destruct (Z.eqb_spec z 0); [contradiction | reflexivity].
  - intros EX ttl w0. unfold cacheClient.set, try_catch, bind, trace, ret, throw.
    simpl. fold ttl. fold w0.
    destruct (cache_set store key v (Some ttl) w0) as [[b|e] w']; reflexivity.
  - intros Hb.
    unfold cacheClient.set, try_catch, bind, trace, ret, throw. simpl.
    unfold nodeCache.set. simpl.
    destruct (Z.leb_spec baseline 0); [lia|].
    destruct (nodeCache.transfer v _) as [v' w'] eqn:E.
    eexists. split; [reflexivity|]. simpl.
    rewrite lookup_insert_eq. reflexivity.
Qed.


Lemma set_ttl_defaulting_witness :
  exists w',
    cacheClient.set nodeCache.api 43200 "k" (VPrim (PStr "v")) None
      (startWorld sampleEnv) = (Normal "OK", w') /\
    expiresAt <$> data (cache w') !! "k" = Some (0 + 43200).
Proof.
  refine (proj1 (proj2 (proj2 (proj2 (proj2
    (set_ttl_defaulting nodeCache.api 43200 "k" (VPrim (PStr "v"))
       (startWorld sampleEnv)))))) _).
  lia.
Defined.

(** ** Flushing *)

(** C7: from every state [flushAll] returns ["OK"] with an empty table and
    with the hit and miss counters as they were; whatever then happens
    short of a [set] (reads, deletes, sweeps, flushes, time passing), a
    [get] of any key returns [null]. *)
Theorem flush_empties_keeps_stats (w : World) :
  let w' := (cacheClient.flushAll nodeCache.api w).2 in
  (cacheClient.flushAll nodeCache.api w).1 = Normal "OK" /\
  data (cache w') = ∅ /\
  hits (stats (cache w')) = hits (stats (cache w)) /\
  misses (stats (cache w')) = misses (stats (cache w)) /\
  forall ops key,
    (cacheClient.get nodeCache.api key (run ops w')).1 = Normal null.
Proof.
  simpl. repeat split.
  intros ops key. rewrite cacheClient_get_eq.
  rewrite live_empty; [reflexivity|].
  apply run_empty. reflexivity.
Qed.


(** ** Ownership of cached values *)

(** C9 (as stated, refuted): a document is passed to [set] and then
    changed by its owner; the next reader of the key finds the changed
    document. *)
Lemma stored_document_is_shared :
  alloc (BDoc london) (startWorld sampleEnv)
  = (VRef 0%nat, (alloc (BDoc london) (startWorld sampleEnv)).2) /\
  observe "weather:London"
    (cacheClient.set nodeCache.api (cacheExpiration sampleEnv) "weather:London"
       (VRef 0%nat) None (alloc (BDoc london) (startWorld sampleEnv)).2).2
  = Some (BDoc london) /\
  observe "weather:London"
    (mutate 0%nat paris
       (cacheClient.set nodeCache.api (cacheExpiration sampleEnv) "weather:London"
          (VRef 0%nat) None (alloc (BDoc london) (startWorld sampleEnv)).2).2)
  = Some (BDoc paris) /\
  BDoc paris <> BDoc london.
Proof.
  split; [reflexivity|]. split; [vm_compute; reflexivity|].
  split; [vm_compute; reflexivity | discriminate].
Qed.

(** C9 (amended): the store is configured with [useClones: false] and
    holds documents by reference.  While the entry is live, [get] returns
    the very reference that was passed to [set]; a change made through that
    reference does not touch the store's table, and it is what every later
    reader of the key observes. *)
Theorem entries_held_by_reference (baseline : Z) (key : string) (l : loc)
    (d : Document) (dt : Z) (w : World) :
  useClones (cache w) = false ->
  0 < baseline ->
  0 <= dt < baseline ->
  (l < length (heap w))%nat ->
  let w1 := (cacheClient.set nodeCache.api baseline key (VRef l) None w).2 in
  let w2 := mutate l d (tick dt w1) in
  (cacheClient.get nodeCache.api key (tick dt w1)).1 = Normal (VRef l) /\
  data (cache w2) = data (cache w1) /\
  (cacheClient.get nodeCache.api key w2).1 = Normal (VRef l) /\
  observe key w2 = Some (BDoc d).
Proof.
  intros Hc Hb Hdt Hl w1 w2.
  assert (Hw1 : w1 =
    with_cache
      (with_data
         (<[key := {| entry_value := VRef l; expiresAt := now w + baseline |}]>
            (data (cache w)))
         (cache w))
      (with_log (log w ++ [CacheSet key (VRef l) baseline]) w)).
  { subst w1. rewrite cacheClient_set_eq. simpl.
    destruct (Z.leb_spec baseline 0); [lia|].
    rewrite transfer_by_reference by exact Hc. reflexivity. }
  assert (Hlive : forall h,
    live key (with_heap h (tick dt w1)) = Some (VRef l)).
  { intros h. rewrite Hw1. unfold live. simpl. rewrite lookup_insert_eq. simpl.
    destruct (Z.ltb_spec (now w + dt) (now w + baseline)); [reflexivity | lia]. }
  assert (Hg : forall h,
    cacheClient.get nodeCache.api key (with_heap h (tick dt w1))
    = (Normal (VRef l),
       with_cache (nodeCache.hit (cache w1)) (with_heap h (tick dt w1)))).
  { intros h. rewrite cacheClient_get_eq, Hlive.
    rewrite transfer_by_reference; [reflexivity|].
    rewrite Hw1. simpl. exact Hc. }
  assert (Hsame : tick dt w1 = with_heap (heap w1) (tick dt w1)).
  { destruct w1. reflexivity. }
  repeat split.
  - rewrite Hsame, Hg. reflexivity.
  - subst w2. unfold mutate. rewrite Hg. reflexivity.
  - unfold observe. subst w2. unfold mutate. rewrite Hg. simpl.
    rewrite list_lookup_insert_eq; [reflexivity|].
    rewrite Hw1. simpl. exact Hl.
Qed.

Lemma entries_held_by_reference_witness :
  observe "weather:London"
    (mutate 0%nat paris
       (tick 60
          (cacheClient.set nodeCache.api 43200 "weather:London" (VRef 0%nat) None
             (alloc (BDoc london) (startWorld sampleEnv)).2).2))
  = Some (BDoc paris).
Proof.
  refine (proj2 (proj2 (proj2
    (entries_held_by_reference 43200 "weather:London" 0%nat paris 60
       (alloc (BDoc london) (startWorld sampleEnv)).2 _ _ _ _)))).
  - reflexivity.
  - lia.
  - lia.
  - simpl. lia.
Defined.

(** With [useClones] on the same change would not be seen: the model of
    the store has both behaviours, and the sources choose the first. *)
Lemma clones_isolate (baseline : Z) (key : string) (l : loc)
    (d0 d : Document) (dt : Z) (w : World) :
  useClones (cache w) = true ->
  0 < baseline ->
  0 <= dt < baseline ->
  heap w !! l = Some d0 ->
  observe key
    (mutate l d
       (tick dt (cacheClient.set nodeCache.api baseline key (VRef l) None w).2))
  = Some (BDoc d0).
Proof.
  intros Hc Hb Hdt Hl.
  pose proof (lookup_lt_Some _ _ _ Hl) as Hlt.
  rewrite cacheClient_set_eq. simpl.
  destruct (Z.leb_spec baseline 0); [lia|].
  unfold nodeCache.transfer at 1. simpl. rewrite Hc.
  unfold nodeCache.clone. simpl. rewrite Hl. simpl.
  unfold observe. rewrite cacheClient_get_eq.
  unfold live. simpl. rewrite lookup_insert_eq. simpl.
  destruct (Z.ltb_spec (now w + dt) (now w + baseline)); [|lia].
  unfold nodeCache.transfer. simpl. rewrite Hc.
  unfold nodeCache.clone. simpl.
  rewrite list_lookup_insert_ne by lia.
  rewrite lookup_app_r by lia. rewrite Nat.sub_diag. simpl.
  rewrite lookup_app_r by lia. rewrite Nat.sub_diag. reflexivity.
Qed.


(** ** The lookup pipeline over the store *)

Lemma handler_throws location e w :
  exists e', handler location e w = (Throw e', w).
Proof.
  unfold handler, throw.
  destruct (response e) as [r|].
  - repeat match goal with
           | |- context [if ?b then _ else _] => destruct b
           end; eauto.
  - destruct (request e); eauto.
Qed.

Lemma transfer_truthy v w : truthy (nodeCache.transfer v w).1 = truthy v.
Proof. transfer_cases v w. Qed.

Lemma upstreamCalls_app w l :
  length (List.filter isUpstreamCall (log w ++ l))
  = (upstreamCalls w + length (List.filter isUpstreamCall l))%nat.
Proof. unfold upstreamCalls. rewrite List.filter_app, length_app. reflexivity. Qed.

Lemma cacheSets_app w l :
  length (List.filter isCacheSet (log w ++ l))
  = (cacheSets w + length (List.filter isCacheSet l))%nat.
Proof. unfold cacheSets. rewrite List.filter_app, length_app. reflexivity. Qed.

(** What a read does to the state: counters only, unless it copies. *)
Lemma cacheClient_get_frame key w :
  let w' := (cacheClient.get nodeCache.api key w).2 in
  log w' = log w /\ now w' = now w /\ data (cache w') = data (cache w) /\
  useClones (cache w') = useClones (cache w) /\
  (useClones (cache w) = false -> heap w' = heap w).
Proof.
  simpl. rewrite cacheClient_get_eq.
  destruct (live key w) as [v|]; [|repeat split].
  pose proof (transfer_cache v w) as Hc.
  pose proof (transfer_log v w) as Hl.
  pose proof (transfer_now v w) as Hn.
  pose proof (transfer_by_reference v w) as Hr.
  destruct (nodeCache.transfer v w) as [v' w']. simpl in *.
  rewrite Hc. repeat split; try assumption.
  intros H. specialize (Hr H). inversion Hr. reflexivity.
Qed.

(** What the upstream call does to the state. *)
Lemma axios_get_frame t baseUrl location requestParams w :
  let w' := (axios_get t baseUrl location requestParams w).2 in
  log w' = (log w ++ [UpstreamCall baseUrl location requestParams])%list /\
  cache w' = cache w /\ now w <= now w'.
Proof.
  simpl. unfold axios_get, bind, trace. simpl.
  destruct t as [r latency|msg latency|msg]; simpl.
  - destruct ((200 <=? status r) && (status r <? 300)); simpl.
    + destruct (body r); simpl; repeat split; lia.
    + repeat split; lia.
  - repeat split; lia.
  - repeat split; lia.
Qed.

Lemma axios_get_resolves t baseUrl location requestParams w resp w' :
  axios_get t baseUrl location requestParams w = (Normal resp, w') ->
  exists r latency,
    t = Responded r latency /\ ar_status resp = status r /\
    ar_data resp = (alloc (body r) w).1 /\
    heap w' = (alloc (body r) w).2.(heap).
Proof.
  unfold axios_get, bind, trace. simpl.
  destruct t as [r latency|msg latency|msg]; simpl; try discriminate.
  destruct ((200 <=? status r) && (status r <? 300)); [|discriminate].
  destruct (body r) eqn:Eb; simpl; intros H; inversion H; subst; simpl;
    exists r, latency; rewrite Eb; simpl; repeat split; reflexivity.
Qed.

(** What a write does to the state. *)
Lemma cacheClient_set_frame baseline key v EX w :
  let w' := (cacheClient.set nodeCache.api baseline key v EX w).2 in
  log w' = (log w ++ [CacheSet key v (cacheClient.ttlOf baseline EX)])%list /\
  now w' = now w /\
  useClones (cache w') = useClones (cache w) /\
  (useClones (cache w) = false -> heap w' = heap w).
Proof.
  simpl. rewrite cacheClient_set_eq. simpl.
  destruct (cacheClient.ttlOf baseline EX <=? 0); [repeat split|].
  set (w0 := with_log _ w).
  pose proof (transfer_cache v w0) as Hc.
  pose proof (transfer_log v w0) as Hl.
  pose proof (transfer_now v w0) as Hn.
  pose proof (transfer_by_reference v w0) as Hr.
  destruct (nodeCache.transfer v w0) as [v' w']. simpl in *.
  rewrite Hc. repeat split; try assumption.
  intros H. specialize (Hr H). inversion Hr. reflexivity.
Qed.

Lemma cacheClient_set_fails baseline key v EX w e :
  (cacheClient.set nodeCache.api baseline key v EX w).1 = Throw e ->
  cache (cacheClient.set nodeCache.api baseline key v EX w).2 = cache w.
Proof.
  rewrite cacheClient_set_eq. simpl.
  destruct (cacheClient.ttlOf baseline EX <=? 0); [reflexivity|].
  destruct (nodeCache.transfer v _). discriminate.
Qed.

(** [getWeatherData], step by step. *)
Lemma getWeatherData_eq env t location params w :
  getWeatherData nodeCache.api env t location params w
  = if negb (Js.truthy location) then
      (Throw (Error "Location is required"), w)
    else if negb (Js.truthy (default "" (apiKey env))) then
      (Throw (Error "Weather API key is not configured"), w)
    else
      let cacheKey := generateCacheKey location params in
      let got := cacheClient.get nodeCache.api cacheKey w in
      match got.1 with
      | Throw e => handler location e got.2
      | Normal cachedData =>
          if truthy cachedData then (Normal cachedData, got.2)
          else
            let requestParams :=
              assign "unitGroup"
                (match prop "unitGroup" params with
                 | PValue s => if Js.truthy s then PValue s else PValue "metric"
                 | _ => PValue "metric"
                 end)
                (assign "key" (PValue (default "" (apiKey env))) params) in
            let called :=
              axios_get t (baseUrl env) location requestParams got.2 in
            match called.1 with
            | Throw e => handler location e called.2
            | Normal resp =>
                if negb (ar_status resp =? 200) then
                  (Throw (Error ("API error: " +:+ ar_statusText resp)), called.2)
                else
                  let put :=
                    cacheClient.set nodeCache.api (cacheExpiration env) cacheKey
                      (ar_data resp) (Some (cacheExpiration env)) called.2 in
                  match put.1 with
                  | Throw e => handler location e put.2
                  | Normal _ => (Normal (ar_data resp), put.2)
                  end
            end
      end.
Proof.
  unfold getWeatherData, try_catch at 1.
  destruct (negb (Js.truthy location)); [reflexivity|].
  destruct (negb (Js.truthy (default "" (apiKey env)))); [reflexivity|].
  unfold bind at 1. simpl.
  destruct (cacheClient.get nodeCache.api _ w) as [[cachedData|e] w1]; simpl;
    [|reflexivity].
  destruct (truthy cachedData); [reflexivity|].
  unfold bind at 1.
  destruct (axios_get t _ location _ w1) as [[resp|e] w2]; simpl; [|reflexivity].
  destruct (negb (ar_status resp =? 200)); [reflexivity|].
  unfold bind at 1.
  destruct (cacheClient.set nodeCache.api _ _ _ _ w2) as [[ok|e] w3]; reflexivity.
Qed.


Lemma cacheClient_get_value key w :
  (cacheClient.get nodeCache.api key w).1
  = Normal (match live key w with
            | Some v => (nodeCache.transfer v w).1
            | None => null
            end).
Proof.
  rewrite cacheClient_get_eq.
  destruct (live key w) as [v|]; [|reflexivity].
  destruct (nodeCache.transfer v w). reflexivity.
Qed.

Lemma axios_get_rejects t baseUrl location requestParams w e :
  (axios_get t baseUrl location requestParams w).1 = Throw e -> stores t = false.
Proof.
  unfold axios_get, bind, trace. simpl.
  destruct t as [r latency|msg latency|msg]; simpl; try reflexivity.
  destruct ((200 <=? status r) && (status r <? 300)) eqn:E.
  - destruct (body r); discriminate.
  - intros _. destruct (Z.eqb_spec (status r) 200) as [H|]; [|reflexivity].
    rewrite H in E. discriminate.
Qed.

(** What one fetch does to the state: how many upstream calls and cache
    writes it adds, and that a fetch that fails leaves the table alone. *)
Lemma getWeatherData_frame env t location params w :
  let res := getWeatherData nodeCache.api env t location params w in
  upstreamCalls res.2
  = (upstreamCalls w + if callsUpstream env location params w then 1 else 0)%nat /\
  cacheSets res.2
  = (cacheSets w +
     if callsUpstream env location params w && stores t then 1 else 0)%nat /\
  now w <= now res.2 /\
  useClones (cache res.2) = useClones (cache w) /\
  (forall e, res.1 = Throw e -> data (cache res.2) = data (cache w)).
Proof.
  simpl. rewrite getWeatherData_eq. unfold callsUpstream.
  destruct (Js.truthy location); simpl;
    [|repeat split; unfold upstreamCalls, cacheSets; lia].
  destruct (Js.truthy (default "" (apiKey env))); simpl;
    [|repeat split; unfold upstreamCalls, cacheSets; lia].
  set (key := generateCacheKey location params).
  destruct (cacheClient_get_frame key w) as (Hl1 & Hn1 & Hd1 & Hc1 & _).
  rewrite (cacheClient_get_value key w).
  set (w1 := (cacheClient.get nodeCache.api key w).2) in *.
  assert (Ht : truthy (match live key w with
                       | Some v => (nodeCache.transfer v w).1
                       | None => null
                       end)
               = match live key w with Some v => truthy v | None => false end).
  { destruct (live key w); [apply transfer_truthy | reflexivity]. }
  rewrite Ht. clear Ht.
  destruct (match live key w with Some v => truthy v | None => false end); simpl.
  { unfold upstreamCalls, cacheSets. rewrite Hl1, Hn1, Hc1.
    repeat split; try lia. discriminate. }
  set (requestParams := assign "unitGroup" _ _).
  destruct (axios_get_frame t (baseUrl env) location requestParams w1)
    as (Hl2 & Hc2 & Hn2).
  pose proof (axios_get_rejects t (baseUrl env) location requestParams w1)
    as Hrej.
  pose proof (axios_get_resolves t (baseUrl env) location requestParams w1)
    as Hres.
  destruct (axios_get t (baseUrl env) location requestParams w1)
    as [[resp|e] w2]; simpl in *.
  - destruct (Hres resp w2 eq_refl) as (r & latency & -> & Hst & _). simpl.
    rewrite Hst.
    destruct (status r =? 200); simpl.
    + set (baseline := cacheExpiration env).
      destruct (cacheClient_set_frame baseline key (ar_data resp) (Some baseline) w2)
        as (Hl3 & Hn3 & Hc3 & _).
      pose proof (cacheClient_set_fails baseline key (ar_data resp) (Some baseline) w2)
        as Hfail.
      destruct (cacheClient.set nodeCache.api baseline key (ar_data resp)
                  (Some baseline) w2) as [[ok|e] w3]; simpl in *.
      * unfold upstreamCalls, cacheSets. rewrite Hl3.
        rewrite upstreamCalls_app, cacheSets_app. unfold upstreamCalls, cacheSets.
        rewrite Hl2, !List.filter_app, !length_app, Hl1. simpl.
        rewrite Hc3, Hc2, Hc1.
        repeat split; try lia. discriminate.
      * destruct (handler_throws location e w3) as [e' ->]. simpl.
        unfold upstreamCalls, cacheSets. rewrite Hl3.
        rewrite upstreamCalls_app, cacheSets_app. unfold upstreamCalls, cacheSets.
        rewrite Hl2, !List.filter_app, !length_app, Hl1. simpl.
        rewrite Hc3, Hc2, Hc1.
        repeat split; try lia.
        intros _ _. rewrite (Hfail e eq_refl), Hc2. exact Hd1.
    + unfold upstreamCalls, cacheSets.
      rewrite Hl2, !List.filter_app, !length_app, Hl1. simpl.
      rewrite Hc2, Hc1.
      repeat split; try lia.
      intros _ _. exact Hd1.
  - destruct (handler_throws location e w2) as [e' ->]. simpl.
    rewrite (Hrej e eq_refl).
    unfold upstreamCalls, cacheSets.
    rewrite Hl2, !List.filter_app, !length_app, Hl1. simpl.
    rewrite Hc2, Hc1.
    repeat split; try lia.
    intros _ _. exact Hd1.
Qed.


(** Entries only expire: later, over the same table, a key holds what it
    held or nothing. *)
Lemma live_later key w w2 :
  data (cache w2) = data (cache w) -> now w <= now w2 ->
  live key w2 = None \/ live key w2 = live key w.
Proof.
  intros Hd Hn. unfold live. rewrite Hd.
  destruct (data (cache w) !! key) as [e|]; [|left; reflexivity].
  destruct (Z.ltb_spec (now w2) (expiresAt e)); [|left; reflexivity].
  destruct (Z.ltb_spec (now w) (expiresAt e)); [right; reflexivity | lia].
Qed.

(** ** Failures are not cached *)

(** C3: a fetch that fails, for whatever reason, leaves the table of the
    store as it was; and if it failed after calling the upstream provider,
    the same fetch made again at any later time calls the provider again. *)
Theorem failures_not_cached (env : Env) (t : Transport) (location : string)
    (params : Params) (w : World) (e : JsError) :
  (getWeatherData nodeCache.api env t location params w).1 = Throw e ->
  let w' := (getWeatherData nodeCache.api env t location params w).2 in
  data (cache w') = data (cache w) /\
  (upstreamCalls w' = S (upstreamCalls w) ->
   forall (dt : Z) (t' : Transport), 0 <= dt ->
     upstreamCalls
       (getWeatherData nodeCache.api env t' location params (tick dt w')).2
     = S (upstreamCalls (tick dt w'))).
Proof.
  intros Hfail w'.
  destruct (getWeatherData_frame env t location params w)
    as (Hup & _ & Hnow & _ & Hdata).
  fold w' in Hup, Hnow, Hdata.
  specialize (Hdata e Hfail).
  split; [exact Hdata|].
  intros Hcalled dt t' Hdt.
  destruct (getWeatherData_frame env t' location params (tick dt w'))
    as (Hup' & _).
  rewrite Hup'.
  assert (Hc : callsUpstream env location params w = true).
  { destruct (callsUpstream env location params w); [reflexivity | lia]. }
  assert (Hc' : callsUpstream env location params (tick dt w') = true).
  { unfold callsUpstream in *.
    apply andb_true_iff in Hc as [Hc Hmiss]. rewrite Hc. simpl.
    destruct (live_later (generateCacheKey location params) w (tick dt w'))
      as [-> | ->]; simpl; try assumption; try reflexivity; lia. }
  rewrite Hc'. lia.
Qed.

Lemma failures_not_cached_witness :
  data (cache
    (getWeatherData nodeCache.api sampleEnv
       (Responded {| status := 429; statusText := "Too Many Requests";
                     body := BPrim PNull |} 2)
       "London" [] (startWorld sampleEnv)).2)
  = data (cache (startWorld sampleEnv)).
Proof.
  refine (proj1
    (failures_not_cached sampleEnv
       (Responded {| status := 429; statusText := "Too Many Requests";
                     body := BPrim PNull |} 2)
       "London" [] (startWorld sampleEnv) (thrown RateLimitExceeded) _)).
  vm_compute. reflexivity.
Defined.


(** ** Cache-aside *)

Lemma deref_alloc b w : deref (alloc b w).1 (alloc b w).2 = Some b.
Proof.
  destruct b as [p|d]; simpl; [reflexivity|].
  rewrite lookup_app_r by lia. rewrite Nat.sub_diag. reflexivity.
Qed.

Lemma truthy_alloc b w : truthy (alloc b w).1 = truthyBody b.
Proof. destruct b; reflexivity. Qed.

(** The first fetch: a miss, one upstream call answered with 200, one
    write; the answer is returned and is live under the key for the whole
    TTL. *)
Lemma first_fetch env location params w r latency :
  Js.truthy location = true ->
  Js.truthy (default "" (apiKey env)) = true ->
  useClones (cache w) = false ->
  0 < cacheExpiration env ->
  live (generateCacheKey location params) w = None ->
  status r = 200 ->
  exists v w1,
    getWeatherData nodeCache.api env (Responded r latency) location params w
    = (Normal v, w1) /\
    deref v w1 = Some (body r) /\
    truthy v = truthyBody (body r) /\
    useClones (cache w1) = false /\
    forall dt, 0 <= dt < cacheExpiration env ->
      live (generateCacheKey location params) (tick dt w1) = Some v.
Proof.
  intros Hl Hk Hc Hb Hlive Hs.
  rewrite getWeatherData_eq, Hl, Hk. simpl.
  rewrite cacheClient_get_value, Hlive. simpl.
  rewrite cacheClient_get_eq, Hlive. simpl.
  unfold axios_get, bind, trace. simpl. rewrite Hs. simpl.
  set (w0 := tick (Z.of_nat latency) _).
  pose proof (deref_alloc (body r) w0) as Hd.
  pose proof (truthy_alloc (body r) w0) as Ht.
  assert (Hc0 : useClones (cache (alloc (body r) w0).2) = false).
  { destruct (body r); exact Hc. }
  destruct (alloc (body r) w0) as [v wa] eqn:Ea. simpl in *.
  assert (Httl : cacheClient.ttlOf (cacheExpiration env) (Some (cacheExpiration env))
                 = cacheExpiration env).
  { unfold cacheClient.ttlOf. destruct (cacheExpiration env =? 0); reflexivity. }
  rewrite cacheClient_set_eq, Httl. cbv zeta.
  destruct (Z.leb_spec (cacheExpiration env) 0); [lia|].
  rewrite transfer_by_reference by exact Hc0. simpl.
  eexists _, _. split; [reflexivity|]. simpl.
  repeat split; try assumption.
  intros dt Hdt. unfold live. simpl. rewrite lookup_insert_eq. simpl.
  destruct (Z.ltb_spec (now wa + dt) (now wa + cacheExpiration env));
    [reflexivity | lia].
Qed.

(** A repeated fetch over a live, truthy entry: a hit, the entry's value
    returned, nothing but the hit counter changed. *)
Lemma repeated_fetch env t location params w v :
  Js.truthy location = true ->
  Js.truthy (default "" (apiKey env)) = true ->
  useClones (cache w) = false ->
  live (generateCacheKey location params) w = Some v ->
  truthy v = true ->
  getWeatherData nodeCache.api env t location params w
  = (Normal v, with_cache (nodeCache.hit (cache w)) w).
Proof.
  intros Hl Hk Hc Hlive Ht.
  rewrite getWeatherData_eq, Hl, Hk. simpl.
  rewrite cacheClient_get_value, Hlive.
  rewrite transfer_by_reference by exact Hc. simpl. rewrite Ht.
  rewrite cacheClient_get_eq, Hlive.
  rewrite transfer_by_reference by exact Hc. reflexivity.
Qed.

(** C1: for a location that is not empty and any parameters, with nothing
    live under their key, a first fetch answered by the provider with
    status 200 and a truthy body makes exactly one upstream call and
    exactly one cache write and returns the body; the same fetch repeated
    within the TTL, whatever the provider would answer, makes no upstream
    call and returns the same value, denoting the same body. *)
Theorem cache_aside (env : Env) (location : string) (params : Params)
    (w : World) (r : Response) (latency : nat) (t2 : Transport) (dt : Z) :
  Js.truthy location = true ->
  Js.truthy (default "" (apiKey env)) = true ->
  useClones (cache w) = false ->
  live (generateCacheKey location params) w = None ->
  status r = 200 ->
  truthyBody (body r) = true ->
  0 <= dt < cacheExpiration env ->
  let first :=
    getWeatherData nodeCache.api env (Responded r latency) location params w in
  let second :=
    getWeatherData nodeCache.api env t2 location params (tick dt first.2) in
  exists v,
    first.1 = Normal v /\
    deref v first.2 = Some (body r) /\
    upstreamCalls first.2 = S (upstreamCalls w) /\
    cacheSets first.2 = S (cacheSets w) /\
    second.1 = Normal v /\
    deref v second.2 = Some (body r) /\
    upstreamCalls second.2 = upstreamCalls first.2 /\
    cacheSets second.2 = cacheSets first.2.
Proof.
  intros Hl Hk Hc Hlive Hs Hb Hdt first second.
  assert (Hpos : 0 < cacheExpiration env) by lia.
  destruct (first_fetch env location params w r latency Hl Hk Hc Hpos Hlive Hs)
    as (v & w1 & Hfirst & Hd & Ht & Hc1 & Hlive1).
  destruct (getWeatherData_frame env (Responded r latency) location params w)
    as (Hup & Hset & _).
  fold first in Hfirst, Hup, Hset.
  assert (Hcall : callsUpstream env location params w = true).
  { unfold callsUpstream. rewrite Hl, Hk, Hlive. reflexivity. }
  rewrite Hcall in Hup, Hset. simpl in Hset. rewrite Hs in Hset. simpl in Hset.
  assert (Hsecond : second = (Normal v,
            with_cache (nodeCache.hit (cache (tick dt w1))) (tick dt w1))).
  { subst second. rewrite Hfirst.
    apply (repeated_fetch env t2 location params (tick dt w1) v).
    - exact Hl.
    - exact Hk.
    - exact Hc1.
    - apply Hlive1, Hdt.
    - rewrite Ht. exact Hb. }
  exists v. rewrite Hsecond. rewrite Hfirst in Hup, Hset |- *. simpl in Hup, Hset |- *.
  repeat split; try assumption; lia.
Qed.

Lemma cache_aside_witness :
  let first :=
    getWeatherData nodeCache.api sampleEnv
      (Responded {| status := 200; statusText := "OK"; body := BDoc london |} 1)
      "London" [("unitGroup", PValue "metric")] (startWorld sampleEnv) in
  let second :=
    getWeatherData nodeCache.api sampleEnv (NoResponse "timeout" 30)
      "London" [("unitGroup", PValue "metric")] (tick 3600 first.2) in
  exists v,
    first.1 = Normal v /\
    deref v first.2 = Some (BDoc london) /\
    upstreamCalls first.2 = 1%nat /\
    cacheSets first.2 = 1%nat /\
    second.1 = Normal v /\
    deref v second.2 = Some (BDoc london) /\
    upstreamCalls second.2 = upstreamCalls first.2 /\
    cacheSets second.2 = cacheSets first.2.
Proof.
  refine (cache_aside sampleEnv "London" [("unitGroup", PValue "metric")]
            (startWorld sampleEnv)
            {| status := 200; statusText := "OK"; body := BDoc london |}
            1%nat (NoResponse "timeout" 30) 3600 _ _ _ _ _ _ _).
  - reflexivity.
  - reflexivity.
  - reflexivity.
  - reflexivity.
  - reflexivity.
  - reflexivity.
  - vm_compute. split; congruence.
Defined.

(** The hypothesis on the body is needed: an empty body is stored, but
    [if (cachedData)] takes the empty string for a miss, and the repeated
    fetch goes to the provider again. *)
Example falsy_body_refetched :
  upstreamCalls
    (getWeatherData nodeCache.api sampleEnv
       (Responded {| status := 200; statusText := "OK"; body := BPrim (PStr "") |} 1)
       "London" []
       (getWeatherData nodeCache.api sampleEnv
          (Responded {| status := 200; statusText := "OK"; body := BPrim (PStr "") |} 1)
          "London" [] (startWorld sampleEnv)).2).2
  = 2%nat.
Proof. vm_compute. reflexivity. Qed.

(** * More of the sources *)

(** ** Strings *)

Lemma append_cons a s t : String a s +:+ t = String a (s +:+ t).
Proof. reflexivity. Qed.

Lemma append_empty_r s : s +:+ "" = s.
Proof. induction s as [|a s IH]; [reflexivity|]. rewrite append_cons, IH. reflexivity. Qed.

Lemma append_assoc s t u : (s +:+ t) +:+ u = s +:+ (t +:+ u).
Proof.
  induction s as [|a s IH]; [reflexivity|].
  rewrite !append_cons, IH. reflexivity.
Qed.

Lemma length_append s t :
  String.length (s +:+ t) = (String.length s + String.length t)%nat.
Proof.
  induction s as [|a s IH]; [reflexivity|].
  rewrite append_cons. simpl. rewrite IH. reflexivity.
Qed.

(** Cancelling a common end. *)
Lemma append_inv_tail s1 s2 t : s1 +:+ t = s2 +:+ t -> s1 = s2.
Proof.
  revert s2. induction s1 as [|a s1 IH]; intros [|b s2] H.
  - reflexivity.
  - apply (f_equal String.length) in H.
    rewrite !length_append in H. simpl in H. lia.
  - apply (f_equal String.length) in H.
    rewrite !length_append in H. simpl in H. lia.
  - rewrite !append_cons in H. inversion H. f_equal. apply IH. assumption.
Qed.

Lemma startsWith_append p rest : JsString.startsWith (p +:+ rest) p = true.
Proof.
  induction p as [|a p IH]; [destruct rest; reflexivity|].
  rewrite append_cons. simpl. rewrite Ascii.eqb_refl, IH. reflexivity.
Qed.

Lemma includes_prefix p rest : JsString.includes (p +:+ rest) p = true.
Proof.
  destruct p as [|a p]; [destruct rest; reflexivity|].
  rewrite append_cons. unfold JsString.includes; fold JsString.includes.
  rewrite <- append_cons, startsWith_append. reflexivity.
Qed.

(** ** The status code of an error reply *)

(** The message of an upstream error of another status carries the
    provider's text, and the status code is read off that text. *)
Lemma statusCodeOf_upstream_error m :
  statusCodeOf ("Weather API error: " +:+ m) = statusCodeOf m.
Proof. unfold statusCodeOf. cbv [String.append]. simpl. reflexivity. Qed.

Lemma statusCodeOf_invalid_request m :
  statusCodeOf ("Invalid request: " +:+ m)
  = if JsString.includes m "Location not found" then 404 else 400.
Proof. unfold statusCodeOf. cbv [String.append]. simpl. reflexivity. Qed.

Lemma statusCodeOf_not_found location :
  statusCodeOf ("Location not found: " +:+ location) = 404.
Proof. unfold statusCodeOf. cbv [String.append]. simpl. reflexivity. Qed.

Lemma statusCodeOf_api_error m :
  statusCodeOf ("API error: " +:+ m) = statusCodeOf m.
Proof. unfold statusCodeOf. cbv [String.append]. simpl. reflexivity. Qed.

(** ** The handler of [GET /:location] *)

Lemma weatherRoute_eq cache env t location query w :
  weatherRoute cache env t location query w
  = match getWeatherData cache env t location (weatherParams query) w with
    | (Normal v, w') => (Normal (Json v), w')
    | (Throw e, w') =>
        (Normal (JsonError (statusCodeOf (message e)) (message e)), w')
    end.
Proof.
  unfold weatherRoute, try_catch, bind, ret.
  destruct (getWeatherData cache env t location (weatherParams query) w)
    as [[v|e] w']; reflexivity.
Qed.

Section RouteErrors.
Context (cache : NodeCacheApi) (env : Env).

(** X1: when the provider answers 404, 401, 403 or 429, or does not answer,
    the handler of [GET /:location] replies with the status 404, 401, 401,
    429 and 500, whatever the location and the provider's text are. *)
Theorem route_status_of_upstream_status location query w r latency :
  reachesUpstream cache env location (weatherParams query) w ->
  ~ (200 <= status r < 300) ->
  let reply := (weatherRoute cache env (Responded r latency) location query w).1 in
  (status r = 404 ->
     reply = Normal (JsonError 404 ("Location not found: " +:+ location))) /\
  (status r = 401 \/ status r = 403 ->
     reply = Normal (JsonError 401 "Invalid API key or authentication error")) /\
  (status r = 429 ->
     reply = Normal (JsonError 429 "API rate limit exceeded")) /\
  (forall msg latency',
     (weatherRoute cache env (NoResponse msg latency') location query w).1
     = Normal (JsonError 500
                 "No response from weather service. Please try again later.")).
Proof.
  intros Hr Hs reply. subst reply. rewrite weatherRoute_eq.
  destruct (rejected_response_handled cache env location (weatherParams query)
              w r latency Hr Hs) as [w' ->].
  unfold handler, throw. simpl.
  repeat split.
  - intros ->. simpl. rewrite statusCodeOf_not_found. reflexivity.
  - intros [-> | ->]; reflexivity.
  - intros ->. reflexivity.
  - intros msg latency'. rewrite weatherRoute_eq.
    destruct (no_response_handled cache env location (weatherParams query)
                w msg latency' Hr) as [w2 ->].
    reflexivity.
Qed.

(** X2: for the other statuses the reply's status code is read off the
    provider's text.  A 400 is answered 400 unless the text contains
    "Location not found", and then 404; any other status is answered with
    the code that the text alone would get: 500 only when it contains none
    of the handler's key phrases. *)
Theorem route_status_follows_upstream_text location query w r latency :
  reachesUpstream cache env location (weatherParams query) w ->
  ~ (200 <= status r < 300) ->
  let reply := (weatherRoute cache env (Responded r latency) location query w).1 in
  (status r = 400 ->
     reply = Normal (JsonError
                       (if JsString.includes (errorMessageOf r) "Location not found"
                        then 404 else 400)
                       ("Invalid request: " +:+ errorMessageOf r))) /\
  (status r <> 400 -> status r <> 401 -> status r <> 403 ->
   status r <> 404 -> status r <> 429 ->
     reply = Normal (JsonError (statusCodeOf (errorMessageOf r))
                       ("Weather API error: " +:+ errorMessageOf r))).
Proof.
  intros Hr Hs reply. subst reply. rewrite weatherRoute_eq.
  destruct (rejected_response_handled cache env location (weatherParams query)
              w r latency Hr Hs) as [w' ->].
  unfold handler, throw. simpl.
  split.
  - intros ->. simpl. rewrite statusCodeOf_invalid_request. reflexivity.
  - intros H0 H1 H3 H4 H9.
    repeat match goal with
           | |- context [?a =? ?b] =>
               destruct (Z.eqb_spec a b); [lia|]; simpl
           end.
    rewrite statusCodeOf_upstream_error. reflexivity.
Qed.

(** X3: without an API key every request with a location is answered 401
    with the message of the configuration error, and neither the cache nor
    the provider is touched. *)
Theorem route_without_api_key t location query w :
  Js.truthy location = true ->
  Js.truthy (default "" (apiKey env)) = false ->
  weatherRoute cache env t location query w
  = (Normal (JsonError 401 "Weather API key is not configured"), w).
Proof.
  intros Hl Hk. rewrite weatherRoute_eq.
  unfold getWeatherData, try_catch. rewrite Hl, Hk. reflexivity.
Qed.
End RouteErrors.

Lemma route_status_of_upstream_status_witness :
  (weatherRoute nodeCache.api sampleEnv
     (Responded {| status := 404; statusText := "Not Found"; body := BPrim (PStr "Bad location") |} 1)
     "Atlantis" [] (startWorld sampleEnv)).1
  = Normal (JsonError 404 "Location not found: Atlantis").
Proof.
  refine (proj1
    (route_status_of_upstream_status nodeCache.api sampleEnv "Atlantis" []
       (startWorld sampleEnv)
       {| status := 404; statusText := "Not Found"; body := BPrim (PStr "Bad location") |}
       1%nat sample_reachesUpstream _) _).
  - simpl. lia.
  - reflexivity.
Defined.

Lemma route_status_follows_upstream_text_witness :
  (weatherRoute nodeCache.api sampleEnv
     (Responded {| status := 500; statusText := "Daily rate limit reached";
                   body := BPrim PNull |} 1)
     "Atlantis" [] (startWorld sampleEnv)).1
  = Normal (JsonError 429 "Weather API error: Daily rate limit reached").
Proof.
  refine (proj2
    (route_status_follows_upstream_text nodeCache.api sampleEnv "Atlantis" []
       (startWorld sampleEnv)
       {| status := 500; statusText := "Daily rate limit reached";
          body := BPrim PNull |}
       1%nat sample_reachesUpstream _) _ _ _ _ _);
    simpl; lia.
Defined.

Lemma route_without_api_key_witness :
  weatherRoute nodeCache.api
    {| WEATHER_API_KEY := None; WEATHER_API_BASE_URL := None;
       CACHE_EXPIRATION := None |}
    (NotSent "unused") "London" [("unitGroup", PValue "us")]
    (startWorld sampleEnv)
  = (Normal (JsonError 401 "Weather API key is not configured"),
     startWorld sampleEnv).
Proof.
  apply (route_without_api_key nodeCache.api
           {| WEATHER_API_KEY := None; WEATHER_API_BASE_URL := None;
              CACHE_EXPIRATION := None |}); reflexivity.
Defined.

(** ** Parameter objects *)

Lemma prop_assign_eq k v o : prop k (assign k v o) = v.
Proof.
  induction o as [|[k' v'] o IH]; simpl.
  - destruct (decide (k = k)); [reflexivity | congruence].
  - destruct (decide (k' = k)) as [->|Hne]; simpl.
    + destruct (decide (k = k)); [reflexivity | congruence].
    + destruct (decide (k' = k)); [congruence | exact IH].
Qed.

Lemma prop_assign_ne k k' v o : k <> k' -> prop k' (assign k v o) = prop k' o.
Proof.
  intros Hne. induction o as [|[k0 v0] o IH]; simpl.
  - destruct (decide (k = k')); [congruence | reflexivity].
  - destruct (decide (k0 = k)) as [->|Hk0]; simpl.
    + destruct (decide (k = k')); [congruence | reflexivity].
    + destruct (decide (k0 = k')); [reflexivity | exact IH].
Qed.

(** A name that is not a property reads as [undefined]. *)
Lemma prop_absent k o : k ∉ map fst o -> prop k o = PUndefined.
Proof.
  induction o as [|[k' v] o IH]; simpl; intros H; [reflexivity|].
  destruct (decide (k' = k)) as [->|Hne].
  - exfalso. apply H. left.
  - apply IH. intros Hin. apply H. right. exact Hin.
Qed.

(** Reading by name does not depend on the order of the properties. *)
Lemma prop_permutation k (o1 o2 : Params) :
  Permutation o1 o2 -> NoDup (map fst o1) -> prop k o1 = prop k o2.
Proof.
  induction 1 as [|[k' v] o1 o2 Hp IH|[k1 v1] [k2 v2] o|o1 o2 o3 Hp1 IH1 Hp2 IH2];
    intros Hnd.
  - reflexivity.
  - simpl. destruct (decide (k' = k)); [reflexivity|].
    apply IH. simpl in Hnd. apply NoDup_cons in Hnd as [_ Hnd]. exact Hnd.
  - simpl in *.
    apply NoDup_cons in Hnd as [Hnotin _].
    destruct (decide (k1 = k)) as [->|H1];
      destruct (decide (k2 = k)) as [->|H2]; try reflexivity.
    exfalso. apply Hnotin. left.
  - rewrite IH1 by exact Hnd. apply IH2.
    assert (Hm : map fst o1 ≡ₚ map fst o2) by (apply Permutation_map; exact Hp1).
    rewrite <- Hm. exact Hnd.
Qed.

(** X4: the parameters that [GET /:location] passes on, and so the cache
    key and the upstream request, do not depend on the order in which the
    query string gives its parameters. *)
Theorem route_params_ignore_query_order (location : string) (query1 query2 : Params) :
  Permutation query1 query2 ->
  NoDup (map fst query1) ->
  weatherParams query1 = weatherParams query2 /\
  generateCacheKey location (weatherParams query1)
  = generateCacheKey location (weatherParams query2).
Proof.
  intros Hp Hnd.
  assert (H : weatherParams query1 = weatherParams query2).
  { unfold weatherParams.
    rewrite !(fun k => prop_permutation k query1 query2 Hp Hnd). reflexivity. }
  rewrite H. split; reflexivity.
Qed.

Lemma route_params_ignore_query_order_witness :
  weatherParams [("include", PValue "days"); ("unitGroup", PValue "us")]
  = weatherParams [("unitGroup", PValue "us"); ("include", PValue "days")] /\
  generateCacheKey "London"
    (weatherParams [("include", PValue "days"); ("unitGroup", PValue "us")])
  = generateCacheKey "London"
    (weatherParams [("unitGroup", PValue "us"); ("include", PValue "days")]).
Proof.
  apply (route_params_ignore_query_order "London"
           [("include", PValue "days"); ("unitGroup", PValue "us")]
           [("unitGroup", PValue "us"); ("include", PValue "days")]).
  - apply perm_swap.
  - simpl. apply NoDup_cons_2; [|apply NoDup_singleton].
    intros H. apply list_elem_of_singleton in H. discriminate.
Defined.

Lemma weatherParams_eq query :
  weatherParams query
  = ((if truthyParam (prop "unitGroup" query)
      then [("unitGroup", prop "unitGroup" query)] else []) ++
     (if truthyParam (prop "include" query)
      then [("include", prop "include" query)] else []) ++
     (if truthyParam (prop "elements" query)
      then [("elements", prop "elements" query)] else []) ++
     (if truthyParam (prop "startDate" query) && truthyParam (prop "endDate" query)
      then [("startDate", prop "startDate" query); ("endDate", prop "endDate" query)]
      else []))%list.
Proof.
  unfold weatherParams.
  destruct (truthyParam (prop "unitGroup" query));
    destruct (truthyParam (prop "include" query));
    destruct (truthyParam (prop "elements" query));
    destruct (truthyParam (prop "startDate" query));
    destruct (truthyParam (prop "endDate" query));
    reflexivity.
Qed.

(** X5: [GET /:location] passes on only the five parameters it knows, each
    with the truthy value the query gave it; anything else in the query
    (a [key], say) is dropped, and a start date or an end date alone is
    dropped too. *)
Theorem route_params_known_and_truthy (query : Params) (k : string) :
  (prop k (weatherParams query) = PUndefined \/
   (k ∈ ["unitGroup"; "include"; "elements"; "startDate"; "endDate"] /\
    prop k (weatherParams query) = prop k query /\
    truthyParam (prop k query) = true)) /\
  truthyParam (prop "startDate" (weatherParams query))
  = truthyParam (prop "endDate" (weatherParams query)) /\
  Forall (fun e => truthyParam e.2 = true) (weatherParams query).
Proof.
  rewrite weatherParams_eq.
  destruct (truthyParam (prop "unitGroup" query)) eqn:Eu;
    destruct (truthyParam (prop "include" query)) eqn:Ei;
    destruct (truthyParam (prop "elements" query)) eqn:Ee;
    destruct (truthyParam (prop "startDate" query)) eqn:Es;
    destruct (truthyParam (prop "endDate" query)) eqn:Ed;
    cbn [andb app];
    (split; [|split]).
  all: try (repeat (constructor; [simpl; assumption|]); constructor; fail).
  all: cbn [prop];
    repeat match goal with
           | |- context [decide (?a = ?b)] =>
               destruct (decide (a = b)) as [?|?];
               try discriminate; try congruence; subst
           end;
    rewrite ?Es, ?Ed; try reflexivity.
  all: try (left; reflexivity).
  all: right; (split; [set_solver | split; [reflexivity | first [assumption | reflexivity]]]).
Qed.

(** ** The request sent upstream *)

(** The upstream call of a fetch that misses the cache is made with
    [requestParams]. *)
Lemma upstream_call_traced env t location params w :
  callsUpstream env location params w = true ->
  exists rest,
    log (getWeatherData nodeCache.api env t location params w).2
    = (log w ++
       UpstreamCall (baseUrl env) location (requestParams env params) :: rest)%list.
Proof.
  unfold callsUpstream. intros Hc.
  apply andb_true_iff in Hc as [Hc Hmiss].
  apply andb_true_iff in Hc as [Hl Hk].
  rewrite getWeatherData_eq, Hl, Hk. simpl.
  set (key := generateCacheKey location params) in *.
  destruct (cacheClient_get_frame key w) as (Hl1 & _).
  rewrite (cacheClient_get_value key w).
  set (w1 := (cacheClient.get nodeCache.api key w).2) in *.
  assert (Ht : truthy (match live key w with
                       | Some v => (nodeCache.transfer v w).1
                       | None => null
                       end) = false).
  { destruct (live key w) as [v|]; [|reflexivity].
    rewrite transfer_truthy.
    destruct (truthy v); [simpl in Hmiss; discriminate | reflexivity]. }
  rewrite Ht. fold (requestParams env params).
  destruct (axios_get_frame t (baseUrl env) location (requestParams env params) w1)
    as (Hl2 & _).
  destruct (axios_get t (baseUrl env) location (requestParams env params) w1)
    as [[resp|e] w2]; simpl in *.
  - destruct (negb (ar_status resp =? 200)); simpl.
    + exists []. rewrite Hl2, Hl1. reflexivity.
    + set (baseline := cacheExpiration env).
      destruct (cacheClient_set_frame baseline key (ar_data resp) (Some baseline) w2)
        as (Hl3 & _).
      destruct (cacheClient.set nodeCache.api baseline key (ar_data resp)
                  (Some baseline) w2) as [[ok|e] w3]; simpl in *.
      * eexists. rewrite Hl3, Hl2, Hl1, <- app_assoc. reflexivity.
      * destruct (handler_throws location e w3) as [e' ->]. simpl.
        eexists. rewrite Hl3, Hl2, Hl1, <- app_assoc. reflexivity.
  - destruct (handler_throws location e w2) as [e' ->]. simpl.
    exists []. rewrite Hl2, Hl1. reflexivity.
Qed.

(** X6: the upstream request of a fetch carries the configured API key
    under [key], whatever the caller passed under that name, and a truthy
    [unitGroup]: the caller's, or [metric] when the caller gave none; every
    other parameter goes through as the caller gave it. *)
Theorem upstream_request_params (env : Env) (t : Transport) (location : string)
    (params : Params) (w : World) :
  callsUpstream env location params w = true ->
  let request := requestParams env params in
  (exists rest,
     log (getWeatherData nodeCache.api env t location params w).2
     = (log w ++ UpstreamCall (baseUrl env) location request :: rest)%list) /\
  prop "key" request = PValue (default "" (apiKey env)) /\
  prop "unitGroup" request = orMetric (prop "unitGroup" params) /\
  truthyParam (prop "unitGroup" request) = true /\
  (forall k, k <> "key" -> k <> "unitGroup" -> prop k request = prop k params).
Proof.
  intros Hc request.
  assert (Hu : prop "unitGroup" request = orMetric (prop "unitGroup" params)).
  { subst request. unfold requestParams. rewrite prop_assign_eq.
    unfold orMetric, truthyParam.
    destruct (prop "unitGroup" params) as [| |s]; reflexivity. }
  split; [apply upstream_call_traced, Hc|].
  split; [|split; [exact Hu|split]].
  - subst request. unfold requestParams.
    rewrite prop_assign_ne by discriminate. apply prop_assign_eq.
  - rewrite Hu. unfold orMetric.
    destruct (truthyParam (prop "unitGroup" params)) eqn:E; [exact E | reflexivity].
  - intros k Hk Hu'. subst request. unfold requestParams.
    rewrite !prop_assign_ne by congruence. reflexivity.
Qed.

Lemma upstream_request_params_witness :
  prop "key"
    (requestParams sampleEnv [("key", PValue "mine"); ("include", PValue "days")])
  = PValue "k-123" /\
  prop "unitGroup"
    (requestParams sampleEnv [("key", PValue "mine"); ("include", PValue "days")])
  = PValue "metric".
Proof.
  destruct (upstream_request_params sampleEnv (NotSent "offline") "London"
              [("key", PValue "mine"); ("include", PValue "days")]
              (startWorld sampleEnv) eq_refl)
    as (_ & Hk & Hu & _).
  split; [exact Hk | exact Hu].
Defined.

(** ** What one fetch does *)

(** X7: a fetch calls the provider at most once and writes the cache at
    most once, and it writes only what the provider answered in this very
    call with status 200. *)
Theorem fetch_accounting (env : Env) (t : Transport) (location : string)
    (params : Params) (w : World) :
  let w' := (getWeatherData nodeCache.api env t location params w).2 in
  (upstreamCalls w' = upstreamCalls w \/ upstreamCalls w' = S (upstreamCalls w)) /\
  (cacheSets w' = cacheSets w \/
   (cacheSets w' = S (cacheSets w) /\
    upstreamCalls w' = S (upstreamCalls w) /\
    exists r latency, t = Responded r latency /\ status r = 200)).
Proof.
  intros w'.
  destruct (getWeatherData_frame env t location params w) as (Hup & Hset & _).
  fold w' in Hup, Hset.
  destruct (callsUpstream env location params w).
  - split; [right; lia|].
    destruct t as [r latency|msg latency|msg]; simpl in Hset;
      try (left; lia).
    destruct (Z.eqb_spec (status r) 200) as [Hs|Hs].
    + right. repeat split; try lia. eauto.
    + left. lia.
  - split; left; simpl in Hset; lia.
Qed.

Lemma transfer_heap v w :
  exists ext, heap (nodeCache.transfer v w).2 = (heap w ++ ext)%list.
Proof.
  unfold nodeCache.transfer, nodeCache.clone.
  destruct (useClones (cache w)); [|exists []; simpl; rewrite app_nil_r; reflexivity].
  destruct v as [p|l]; [exists []; simpl; rewrite app_nil_r; reflexivity|].
  destruct (heap w !! l) as [d|].
  - exists [d]. reflexivity.
  - exists []. simpl. rewrite app_nil_r. reflexivity.
Qed.

Lemma deref_extend v w w' b ext :
  deref v w = Some b -> heap w' = (heap w ++ ext)%list -> deref v w' = Some b.
Proof.
  destruct v as [p|l]; simpl; [intros H _; exact H|].
  intros H ->. destruct (heap w !! l) as [d|] eqn:E; [|discriminate].
  rewrite (lookup_app_l_Some _ _ _ _ E). exact H.
Qed.

Lemma cacheClient_set_heap baseline key v EX w :
  exists ext,
    heap (cacheClient.set nodeCache.api baseline key v EX w).2
    = (heap w ++ ext)%list.
Proof.
  rewrite cacheClient_set_eq. simpl.
  destruct (cacheClient.ttlOf baseline EX <=? 0).
  - exists []. simpl. rewrite app_nil_r. reflexivity.
  - set (w0 := with_log _ w).
    destruct (transfer_heap v w0) as [ext Hext].
    destruct (nodeCache.transfer v w0) as [v' w1]. simpl in *.
    exists ext. exact Hext.
Qed.

(** The miss path of [getWeatherData_eq], from the upstream call on: when
    it returns, the provider answered 200 and the value denotes the body. *)
Lemma miss_returns_body env t location key requestParams w1 v w' :
  (let called := axios_get t (baseUrl env) location requestParams w1 in
   match called.1 with
   | Throw e => handler location e called.2
   | Normal resp =>
       if negb (ar_status resp =? 200) then
         (Throw (Error ("API error: " +:+ ar_statusText resp)), called.2)
       else
         let put :=
           cacheClient.set nodeCache.api (cacheExpiration env) key
             (ar_data resp) (Some (cacheExpiration env)) called.2 in
         match put.1 with
         | Throw e => handler location e put.2
         | Normal _ => (Normal (ar_data resp), put.2)
         end
   end) = (Normal v, w') ->
  exists r latency,
    t = Responded r latency /\ status r = 200 /\ deref v w' = Some (body r).
Proof.
  cbv zeta.
  pose proof (axios_get_resolves t (baseUrl env) location requestParams w1) as Hres.
  destruct (axios_get t (baseUrl env) location requestParams w1)
    as [[resp|e] w2]; simpl.
  - destruct (Hres resp w2 eq_refl) as (r & latency & -> & Hst & Hdata & Hheap).
    rewrite Hst.
    destruct (Z.eqb_spec (status r) 200) as [Hs|Hs]; simpl; [|discriminate].
    destruct (cacheClient_set_heap (cacheExpiration env) key (ar_data resp)
                (Some (cacheExpiration env)) w2) as [ext Hext].
    destruct (cacheClient.set nodeCache.api (cacheExpiration env) key
                (ar_data resp) (Some (cacheExpiration env)) w2)
      as [[ok|e] w3]; simpl in *.
    + intros H. inversion H. subst. exists r, latency.
      repeat split; try assumption.
      apply (deref_extend _ w2 _ _ ext); [|exact Hext].
      rewrite Hdata.
      apply (deref_extend _ (alloc (body r) w1).2 _ _ []);
        [apply deref_alloc | rewrite app_nil_r; exact Hheap].
    + destruct (handler_throws location e w3) as [e' ->]. discriminate.
  - destruct (handler_throws location e w2) as [e' ->]. discriminate.
Qed.

(** X8: what a fetch returns is either a truthy value that was live in the
    cache under its key, and then neither the provider nor the cache is
    called for more, or the body of a response that the provider gave to
    this very fetch with status 200. *)
Theorem fetch_result_provenance (env : Env) (t : Transport) (location : string)
    (params : Params) (w : World) (v : value) :
  (getWeatherData nodeCache.api env t location params w).1 = Normal v ->
  let w' := (getWeatherData nodeCache.api env t location params w).2 in
  (exists v0,
     live (generateCacheKey location params) w = Some v0 /\
     truthy v0 = true /\
     v = (nodeCache.transfer v0 w).1 /\
     upstreamCalls w' = upstreamCalls w /\
     cacheSets w' = cacheSets w) \/
  (exists r latency,
     t = Responded r latency /\
     status r = 200 /\
     deref v w' = Some (body r) /\
     upstreamCalls w' = S (upstreamCalls w)).
Proof.
  intros Hres w'.
  destruct (getWeatherData_frame env t location params w) as (Hup & Hset & _).
  fold w' in Hup, Hset. unfold callsUpstream in Hup, Hset.
  assert (Hpair : getWeatherData nodeCache.api env t location params w = (Normal v, w')).
  { subst w'. rewrite <- Hres. apply surjective_pairing. }
  clear Hres. revert Hpair Hup Hset. generalize w'. clear w'. intros w'.
  rewrite getWeatherData_eq.
  destruct (Js.truthy location); simpl; [|discriminate].
  destruct (Js.truthy (default "" (apiKey env))); simpl; [|discriminate].
  set (key := generateCacheKey location params).
  rewrite (cacheClient_get_value key w).
  set (w1 := (cacheClient.get nodeCache.api key w).2).
  assert (Hmiss : forall b,
    (match live key w with Some v0 => truthy v0 | None => false end) = false ->
    (let called := axios_get t (baseUrl env) location b w1 in
     match called.1 with
     | Throw e => handler location e called.2
     | Normal resp =>
         if negb (ar_status resp =? 200) then
           (Throw (Error ("API error: " +:+ ar_statusText resp)), called.2)
         else
           let put :=
             cacheClient.set nodeCache.api (cacheExpiration env) key
               (ar_data resp) (Some (cacheExpiration env)) called.2 in
           match put.1 with
           | Throw e => handler location e put.2
           | Normal _ => (Normal (ar_data resp), put.2)
           end
     end) = (Normal v, w') ->
    upstreamCalls w'
    = (upstreamCalls w +
       (if negb (match live key w with Some v0 => truthy v0 | None => false end)
        then 1 else 0))%nat ->
    exists r latency,
      t = Responded r latency /\ status r = 200 /\
      deref v w' = Some (body r) /\ upstreamCalls w' = S (upstreamCalls w)).
  { intros b Hfalsy Hpair Hup. rewrite Hfalsy in Hup. simpl in Hup.
    destruct (miss_returns_body env t location key b w1 v w' Hpair)
      as (r & latency & Ht & Hs & Hd).
    exists r, latency. repeat split; try assumption. lia. }
  destruct (live key w) as [v0|] eqn:Elive.
  - rewrite transfer_truthy.
    destruct (truthy v0) eqn:Et; simpl.
    + intros Hpair Hup Hset. inversion Hpair as [[Hv Hw]]. left. exists v0.
      rewrite Hw. simpl in Hup, Hset.
      repeat split; try reflexivity; try assumption; lia.
    + intros Hpair Hup _. right. eapply Hmiss; [reflexivity | exact Hpair | exact Hup].
  - simpl. intros Hpair Hup _. right.
    eapply Hmiss; [reflexivity | exact Hpair | exact Hup].
Qed.

Lemma fetch_result_provenance_witness :
  exists r latency,
    Responded {| status := 200; statusText := "OK"; body := BDoc london |} 1
    = Responded r latency /\
    status r = 200 /\
    deref (VRef 0%nat)
      (getWeatherData nodeCache.api sampleEnv
         (Responded {| status := 200; statusText := "OK"; body := BDoc london |} 1)
         "London" [] (startWorld sampleEnv)).2
    = Some (body r) /\
    upstreamCalls
      (getWeatherData nodeCache.api sampleEnv
         (Responded {| status := 200; statusText := "OK"; body := BDoc london |} 1)
         "London" [] (startWorld sampleEnv)).2
    = 1%nat.
Proof.
  destruct (fetch_result_provenance sampleEnv
              (Responded {| status := 200; statusText := "OK"; body := BDoc london |} 1)
              "London" [] (startWorld sampleEnv) (VRef 0%nat) eq_refl)
    as [(v0 & Hlive & _) | H].
  - vm_compute in Hlive. discriminate.
  - exact H.
Defined.

(** ** Cache keys *)

Lemma truthy_append a b : Js.truthy (a +:+ b) = Js.truthy a || Js.truthy b.
Proof. destruct a; [destruct b|]; reflexivity. Qed.

Lemma entryString_truthy e : Js.truthy (entryString e) = true.
Proof.
  unfold entryString. rewrite !truthy_append. simpl.
  rewrite orb_true_r. reflexivity.
Qed.

Lemma concat_truthy sep (l : list string) :
  l <> [] -> Forall (fun s => Js.truthy s = true) l ->
  Js.truthy (String.concat sep l) = true.
Proof.
  destruct l as [|x [|y l]]; intros Hne Hall; [congruence| |].
  - simpl. apply Forall_cons in Hall as [Hx _]. exact Hx.
  - change (String.concat sep (x :: y :: l))
      with (x +:+ sep +:+ String.concat sep (y :: l)).
    apply Forall_cons in Hall as [Hx _].
    rewrite truthy_append, Hx. reflexivity.
Qed.

(** With defined parameters the key is the location, a colon, and the
    parameters joined. *)
Lemma generateCacheKey_with_params location params :
  List.filter defined params <> [] ->
  generateCacheKey location params
  = "weather:" +:+ location +:+ ":" +:+
    String.concat "&" (map entryString (List.filter defined params)).
Proof.
  intros Hne. unfold generateCacheKey.
  rewrite concat_truthy; [reflexivity | |].
  - destruct (List.filter defined params); [congruence | discriminate].
  - apply Forall_forall. intros s Hs.
    apply list_elem_of_In, in_map_iff in Hs as (e & <- & _).
    apply entryString_truthy.
Qed.

Lemma generateCacheKey_without_params location :
  generateCacheKey location [] = "weather:" +:+ location.
Proof. unfold generateCacheKey. simpl. rewrite append_empty_r. reflexivity. Qed.

(** X9: the key does not tell the location from the parameters.  A request
    with parameters and a request without any, for the location that spells
    out the first one's key, share one key; so after the first has been
    answered and cached, the second is served that answer from the cache,
    and the provider is not asked about its location. *)
Theorem colliding_request_served_from_cache (env : Env) (location : string)
    (params : Params) (w : World) (r : Response) (latency : nat)
    (t2 : Transport) (dt : Z) :
  List.filter defined params <> [] ->
  Js.truthy (default "" (apiKey env)) = true ->
  useClones (cache w) = false ->
  live (generateCacheKey location params) w = None ->
  status r = 200 ->
  truthyBody (body r) = true ->
  0 <= dt < cacheExpiration env ->
  let other :=
    location +:+ ":" +:+
    String.concat "&" (map entryString (List.filter defined params)) in
  let first :=
    getWeatherData nodeCache.api env (Responded r latency) location params w in
  let second :=
    getWeatherData nodeCache.api env t2 other [] (tick dt first.2) in
  generateCacheKey other [] = generateCacheKey location params /\
  (Js.truthy location = true ->
   exists v,
     first.1 = Normal v /\
     second.1 = Normal v /\
     upstreamCalls second.2 = upstreamCalls first.2).
Proof.
  intros Hne Hk Hc Hlive Hs Hb Hdt other first second.
  assert (Hkey : generateCacheKey other [] = generateCacheKey location params).
  { rewrite generateCacheKey_without_params, generateCacheKey_with_params by exact Hne.
    reflexivity. }
  split; [exact Hkey|].
  intros Hl.
  assert (Hpos : 0 < cacheExpiration env) by lia.
  destruct (first_fetch env location params w r latency Hl Hk Hc Hpos Hlive Hs)
    as (v & w1 & Hfirst & _ & Ht & Hc1 & Hlive1).
  fold first in Hfirst.
  assert (Hother : Js.truthy other = true).
  { subst other. rewrite truthy_append, Hl. reflexivity. }
  assert (Hsecond : second = (Normal v,
            with_cache (nodeCache.hit (cache (tick dt w1))) (tick dt w1))).
  { subst second. rewrite Hfirst.
    apply (repeated_fetch env t2 other [] (tick dt w1) v).
    - exact Hother.
    - exact Hk.
    - exact Hc1.
    - rewrite Hkey. apply Hlive1, Hdt.
    - rewrite Ht. exact Hb. }
  exists v. rewrite Hsecond, Hfirst. repeat split.
Qed.

Lemma colliding_request_served_from_cache_witness :
  generateCacheKey "London:unitGroup=us" []
  = generateCacheKey "London" [("unitGroup", PValue "us")].
Proof.
  refine (proj1
    (colliding_request_served_from_cache sampleEnv "London"
       [("unitGroup", PValue "us")] (startWorld sampleEnv)
       {| status := 200; statusText := "OK"; body := BDoc london |}
       1%nat (NotSent "offline") 60 _ _ _ _ _ _ _)).
  - discriminate.
  - reflexivity.
  - reflexivity.
  - reflexivity.
  - reflexivity.
  - reflexivity.
  - vm_compute. split; congruence.
Defined.

(** X10: under the same parameters two different locations never get the
    same key. *)
Theorem cache_key_tells_locations_apart (location1 location2 : string)
    (params : Params) :
  location1 <> location2 ->
  generateCacheKey location1 params <> generateCacheKey location2 params.
Proof.
  intros Hne Heq. apply Hne. unfold generateCacheKey in Heq.
  apply String.app_inj in Heq.
  apply append_inv_tail in Heq. exact Heq.
Qed.

Lemma cache_key_tells_locations_apart_witness :
  generateCacheKey "London" [("unitGroup", PValue "us")]
  <> generateCacheKey "london" [("unitGroup", PValue "us")].
Proof.
  apply (cache_key_tells_locations_apart "London" "london"). discriminate.
Defined.

Lemma orMetric_value v : exists s, orMetric v = PValue s /\ Js.truthy s = true.
Proof.
  unfold orMetric. destruct v as [| |s]; simpl; eauto.
  destruct (Js.truthy s) eqn:E; eauto.
Qed.

(** X11: for one location, the current-conditions route and the forecast
    route never use the same key, whatever unit group each is asked for:
    neither is ever served the other's cached answer. *)
Theorem current_and_forecast_keys_differ (location : string)
    (query1 query2 : Params) :
  generateCacheKey location (currentParams query1)
  <> generateCacheKey location (forecastParams query2).
Proof.
  unfold currentParams, forecastParams.
  destruct (orMetric_value (prop "unitGroup" query1)) as (s1 & -> & _).
  destruct (orMetric_value (prop "unitGroup" query2)) as (s2 & -> & _).
  rewrite !generateCacheKey_with_params by discriminate.
  intros Heq. do 2 apply String.app_inj in Heq.
  cbv [String.append String.concat map List.filter defined entryString fst snd]
    in Heq.
  discriminate.
Qed.

(** ** A success status other than 200 *)

(** X12: a response whose status is in 2xx but is not 200 is not taken for
    an answer: the fetch fails with "API error:" and the status text, the
    route's reply takes its status code from the status text, and after
    the cache read the only call made is the upstream call: no cache write
    is attempted. *)
Theorem other_success_status_fails (cache : NodeCacheApi) (env : Env)
    (location : string) (query : Params) (w : World) (r : Response)
    (latency : nat) :
  reachesUpstream cache env location (weatherParams query) w ->
  200 <= status r < 300 ->
  status r <> 200 ->
  (getWeatherData cache env (Responded r latency) location (weatherParams query) w).1
  = Throw (Error ("API error: " +:+ statusText r)) /\
  (weatherRoute cache env (Responded r latency) location query w).1
  = Normal (JsonError (statusCodeOf (statusText r))
              ("API error: " +:+ statusText r)) /\
  log (getWeatherData cache env (Responded r latency) location
         (weatherParams query) w).2
  = (log (cacheClient.get cache
            (generateCacheKey location (weatherParams query)) w).2 ++
     [UpstreamCall (baseUrl env) location
        (requestParams env (weatherParams query))])%list.
Proof.
  intros (Hl & Hk & v & w1 & Hget & Hv) Hs Hne.
  assert (Hg : exists w',
    getWeatherData cache env (Responded r latency) location (weatherParams query) w
    = (Throw (Error ("API error: " +:+ statusText r)), w') /\
    log w' = (log w1 ++ [UpstreamCall (baseUrl env) location
                           (requestParams env (weatherParams query))])%list).
  { unfold getWeatherData, try_catch at 1, bind.
    rewrite Hl, Hk. simpl. rewrite Hget, Hv.
    unfold axios_get, bind, trace. simpl.
    destruct ((200 <=? status r) && (status r <? 300)) eqn:E.
    - destruct (body r); simpl;
        (destruct (Z.eqb_spec (status r) 200); [contradiction|]);
        simpl; eexists; split; reflexivity.
    - apply andb_false_iff in E. lia. }
  destruct Hg as (w' & Hg & Hlog).
  split; [rewrite Hg; reflexivity|].
  split.
  - rewrite weatherRoute_eq, Hg. simpl.
    rewrite statusCodeOf_api_error. reflexivity.
  - rewrite Hg, Hget. exact Hlog.
Qed.

Lemma other_success_status_fails_witness :
  (weatherRoute nodeCache.api sampleEnv
     (Responded {| status := 204; statusText := "No Content"; body := BPrim (PStr "") |} 1)
     "Atlantis" [] (startWorld sampleEnv)).1
  = Normal (JsonError 500 "API error: No Content").
Proof.
  refine (proj1 (proj2
    (other_success_status_fails nodeCache.api sampleEnv "Atlantis" []
       (startWorld sampleEnv)
       {| status := 204; statusText := "No Content"; body := BPrim (PStr "") |}
       1%nat sample_reachesUpstream _ _))).
  - simpl. lia.
  - simpl. lia.
Defined.

(** ** Forecast truncation, on every count *)

(** X13: whatever the requested count is, the days returned are the first
    so many of the record's days, in their order. *)
Theorem forecast_is_prefix {A : Type} (weatherData_days : list A)
    (days : option string) :
  exists n : nat,
    (n <= length weatherData_days)%nat /\
    forecastDays weatherData_days days = take n weatherData_days.
Proof.
  assert (Hall : exists n : nat, (n <= length weatherData_days)%nat /\
                   weatherData_days = take n weatherData_days).
  { exists (length weatherData_days). split; [lia|]. rewrite firstn_all. reflexivity. }
  unfold forecastDays. destruct days as [d|]; [|exact Hall].
  destruct (Js.truthy d && negb (Js.isNaN d) && Js.gtZero (Js.ToNumber d));
    [|exact Hall].
  unfold Js.slice0.
  set (len := Z.of_nat (length weatherData_days)).
  set (relativeEnd := default 0 (Js.parseInt d)).
  exists (Z.to_nat (if relativeEnd <? 0 then Z.max (len + relativeEnd) 0
                    else Z.min relativeEnd len)).
  split; [|reflexivity].
  destruct (Z.ltb_spec relativeEnd 0); lia.
Qed.

(** X14: a count written in decimal digits is honoured: above zero it
    gives the first [c] days, all of them when there are fewer; zero
    gives them all. *)
Theorem forecast_count_in_decimal_digits {A : Type} (weatherData_days : list A)
    (days : string) :
  days <> "" ->
  forallb Js.isDecimalDigit (list_ascii_of_string days) = true ->
  let c := Js.decimalValue 0 (list_ascii_of_string days) in
  (0 < c -> forecastDays weatherData_days (Some days)
            = take (Z.to_nat c) weatherData_days) /\
  (c = 0 -> forecastDays weatherData_days (Some days) = weatherData_days) /\
  length (forecastDays weatherData_days (Some days))
  = (if 0 <? c then Nat.min (Z.to_nat c) (length weatherData_days)
     else length weatherData_days).
Proof.
  intros Hne Hd c.
  pose proof (forecast_decimal_count weatherData_days days Hne Hd) as H.
  cbv zeta in H. fold c in H. rewrite H.
  destruct (Z.ltb_spec 0 c) as [Hc|Hc].
  - assert (Ht : take (Z.to_nat (Z.min c (Z.of_nat (length weatherData_days))))
                   weatherData_days = take (Z.to_nat c) weatherData_days).
    { destruct (Z.le_gt_cases c (Z.of_nat (length weatherData_days))).
      - rewrite Z.min_l by lia. reflexivity.
      - rewrite Z.min_r by lia. rewrite Nat2Z.id.
        rewrite firstn_all. symmetry. apply take_ge. lia. }
    rewrite Ht. repeat split.
    + lia.
    + apply length_take.
  - repeat split. lia.
Qed.

Lemma forecast_count_in_decimal_digits_witness :
  forecastDays ["d1"; "d2"; "d3"] (Some "2") = take 2 ["d1"; "d2"; "d3"].
Proof.
  refine (proj1 (forecast_count_in_decimal_digits ["d1"; "d2"; "d3"] "2" _ _) _).
  - discriminate.
  - reflexivity.
  - reflexivity.
Defined.

(** ** Deleting a key *)

(** X15: for every behaviour of the store's [del], [cacheClient.del]
    returns: 1 when the store removed an entry, 0 when it removed none or
    threw; it never throws, and it leaves no effect of its own. *)
Theorem cacheClient_del_total (store : NodeCacheApi) (key : string) (w : World) :
  exists n w',
    cacheClient.del store key w = (Normal n, w') /\
    w' = (cache_del store key w).2 /\
    n = match (cache_del store key w).1 with
        | Normal (S _) => 1
        | Normal O => 0
        | Throw _ => 0
        end.
Proof.
  unfold cacheClient.del, try_catch, bind, ret.
  destruct (cache_del store key w) as [[[|n]|e] w']; simpl; eauto.
Qed.

(** ** Startup *)

Lemma startFrom_spec {P : Type} (listens : nat -> P -> bool) (rest : list P)
    (k : nat) :
  match startFrom listens rest k with
  | Listening p =>
      exists i, rest !! i = Some p /\ listens (k + i)%nat p = true /\
        forall j q, (j < i)%nat -> rest !! j = Some q ->
                    listens (k + j)%nat q = false
  | Exit code =>
      code = 1 /\
      forall j q, rest !! j = Some q -> listens (k + j)%nat q = false
  end.
Proof.
  revert k. induction rest as [|port rest IH]; intros k; simpl.
  - split; [reflexivity|]. intros j q H. rewrite lookup_nil in H. discriminate.
  - destruct (listens k port) eqn:E.
    + exists 0%nat. rewrite Nat.add_0_r. repeat split; [exact E|]. intros j q Hj. lia.
    + specialize (IH (S k)).
      destruct (startFrom listens rest (S k)) as [p|code].
      * destruct IH as (i & Hi & Hp & Hbefore). exists (S i).
        split; [exact Hi|]. split; [rewrite Nat.add_succ_r; exact Hp|].
        intros [|j] q Hj Hq; simpl in Hq.
        -- inversion Hq. subst. rewrite Nat.add_0_r. exact E.
        -- rewrite Nat.add_succ_r. apply (Hbefore j q); [lia | exact Hq].
      * destruct IH as (Hc & Hall). split; [exact Hc|].
        intros [|j] q Hq; simpl in Hq.
        -- inversion Hq. subst. rewrite Nat.add_0_r. exact E.
        -- rewrite Nat.add_succ_r. apply (Hall j q Hq).
Qed.

(** X16: the server ends up listening on the first port of the list whose
    attempt succeeds, having failed on every port before it; only when
    every attempt fails does the process exit, and then with code 1. *)
Theorem server_listens_on_first_available {P : Type}
    (listens : nat -> P -> bool) (ports : list P) :
  match startServerOnAvailablePort listens ports 0 with
  | Listening p =>
      exists i, ports !! i = Some p /\ listens i p = true /\
        forall j q, (j < i)%nat -> ports !! j = Some q -> listens j q = false
  | Exit code =>
      code = 1 /\ forall j q, ports !! j = Some q -> listens j q = false
  end.
Proof.
  unfold startServerOnAvailablePort. rewrite drop_0.
  apply (startFrom_spec listens ports 0).
Qed.

(** X17: a process that got as far as listening has an API key that is set
    and is not the placeholder, so no fetch of its routes fails for a
    missing key; and it listens on one of the seven ports of the list.
    Without such a key the process exits with code 1 whatever the ports
    are. *)
Theorem started_server_has_api_key (env : Env) (PORT : option string)
    (listens : nat -> string -> bool) :
  (forall p, main env PORT listens = Listening p ->
     Js.truthy (default "" (apiKey env)) = true /\
     apiKey env <> Some "ABC123XYZ456" /\
     p ∈ portOptions PORT) /\
  (Js.truthy (default "" (apiKey env)) = false \/
   apiKey env = Some "ABC123XYZ456" ->
   main env PORT listens = Exit 1).
Proof.
  unfold main, checkEnvironment, apiKey. split.
  - intros p.
    destruct (Js.truthy (default "" (WEATHER_API_KEY env))) eqn:Ek; simpl;
      [|discriminate].
    destruct (String.eqb_spec (default "" (WEATHER_API_KEY env)) "ABC123XYZ456")
      as [Heq|Hne]; [discriminate|].
    intros Hmain. split; [reflexivity|]. split.
    + intros Hk. apply Hne. rewrite Hk. reflexivity.
    + pose proof (startFrom_spec listens (portOptions PORT) 0) as H.
      unfold startServerOnAvailablePort in Hmain. rewrite drop_0 in Hmain.
      rewrite Hmain in H. destruct H as (i & Hi & _).
      apply list_elem_of_lookup. eauto.
  - intros [Hk | Hk].
    + rewrite Hk. reflexivity.
    + rewrite Hk. reflexivity.
Qed.

(** ** The console client's key *)

Lemma lowerChar_idempotent c :
  JsString.lowerChar (JsString.lowerChar c) = JsString.lowerChar c.
Proof.
  destruct c as [[] [] [] [] [] [] [] []]; vm_compute; reflexivity.
Qed.

Lemma toLowerCase_idempotent s :
  JsString.toLowerCase (JsString.toLowerCase s) = JsString.toLowerCase s.
Proof.
  induction s as [|c s IH]; simpl; [reflexivity|].
  rewrite lowerChar_idempotent, IH. reflexivity.
Qed.

(** X18: the console client's cache key does not tell letter case: two
    locations share a key exactly when their lower-case forms are equal,
    and a location shares its key with its lower-case form. *)
Theorem cli_key_ignores_case (location1 location2 : string) :
  (cli_generateCacheKey location1 = cli_generateCacheKey location2 <->
   JsString.toLowerCase location1 = JsString.toLowerCase location2) /\
  cli_generateCacheKey (JsString.toLowerCase location1)
  = cli_generateCacheKey location1.
Proof.
  unfold cli_generateCacheKey. split; [split|].
  - intros H. apply String.app_inj in H. exact H.
  - intros ->. reflexivity.
  - rewrite toLowerCase_idempotent. reflexivity.
Qed.

(** ** Other keys *)

Lemma cacheClient_set_other_key baseline key v EX w key' :
  key' <> key ->
  data (cache (cacheClient.set nodeCache.api baseline key v EX w).2) !! key'
  = data (cache w) !! key'.
Proof.
  intros Hne. rewrite cacheClient_set_eq. simpl.
  destruct (cacheClient.ttlOf baseline EX <=? 0); [reflexivity|].
  set (w0 := with_log _ w).
  pose proof (transfer_cache v w0) as Hc.
  destruct (nodeCache.transfer v w0) as [v' w1]. simpl in *.
  rewrite lookup_insert_ne by congruence. rewrite Hc. reflexivity.
Qed.

(** X19: a fetch leaves the entries of all other keys as they are: what it
    writes, it writes under its own key. *)
Theorem fetch_touches_own_key_only (env : Env) (t : Transport)
    (location : string) (params : Params) (w : World) (key' : string) :
  key' <> generateCacheKey location params ->
  data (cache (getWeatherData nodeCache.api env t location params w).2) !! key'
  = data (cache w) !! key'.
Proof.
  intros Hne. rewrite getWeatherData_eq.
  destruct (negb (Js.truthy location)); [reflexivity|].
  destruct (negb (Js.truthy (default "" (apiKey env)))); [reflexivity|].
  cbv zeta.
  set (key := generateCacheKey location params) in *.
  destruct (cacheClient_get_frame key w) as (_ & _ & Hd1 & _).
  rewrite (cacheClient_get_value key w).
  set (w1 := (cacheClient.get nodeCache.api key w).2) in *.
  destruct (truthy _); [simpl; rewrite Hd1; reflexivity|].
  set (request := assign "unitGroup" _ _).
  destruct (axios_get_frame t (baseUrl env) location request w1) as (_ & Hc2 & _).
  destruct (axios_get t (baseUrl env) location request w1) as [[resp|e] w2];
    simpl in *.
  - destruct (negb (ar_status resp =? 200)); simpl.
    + rewrite Hc2, Hd1. reflexivity.
    + pose proof (cacheClient_set_other_key (cacheExpiration env) key
                    (ar_data resp) (Some (cacheExpiration env)) w2 key' Hne) as Hset.
      destruct (cacheClient.set nodeCache.api (cacheExpiration env) key
                  (ar_data resp) (Some (cacheExpiration env)) w2)
        as [[ok|e] w3]; simpl in *.
      * rewrite Hset, Hc2, Hd1. reflexivity.
      * destruct (handler_throws location e w3) as [e' ->]. simpl.
        rewrite Hset, Hc2, Hd1. reflexivity.
  - destruct (handler_throws location e w2) as [e' ->]. simpl.
    rewrite Hc2, Hd1. reflexivity.
Qed.

Lemma fetch_touches_own_key_only_witness :
  data (cache
    (getWeatherData nodeCache.api sampleEnv
       (Responded {| status := 200; statusText := "OK"; body := BDoc london |} 1)
       "London" [] (startWorld sampleEnv)).2) !! "weather:Paris"
  = data (cache (startWorld sampleEnv)) !! "weather:Paris".
Proof.
  apply (fetch_touches_own_key_only sampleEnv
           (Responded {| status := 200; statusText := "OK"; body := BDoc london |} 1)
           "London" [] (startWorld sampleEnv) "weather:Paris").
  discriminate.
Defined.
